(** * lock_and_capture: a shallow embedding of [lock_and_capture.py]

    The program probes camera devices 0..4, captures one still image from the
    first working one, and locks the Windows session.  Everything it does is
    a sequence of calls into the outside world (OpenCV, user32.dll, the
    clock), so the embedding is a state-and-exception monad over the history
    of those calls, and the outside world is an arbitrary deterministic
    environment that answers each call from the history so far.

    The calls the environment may answer with an exception are the ones the
    program itself guards: loading User32.dll, [MessageBoxW],
    [LockWorkStation], the [cv2.VideoCapture] constructor, [cap.set],
    [cap.read] and [cv2.imwrite].  [cap.isOpened], [cap.release], the clock,
    [time.sleep], [print] and the logging calls always return.  What the
    environment raises is an instance of [Exception]; an asynchronous
    [KeyboardInterrupt] is not generated, although the clause of [run] that
    would catch it is there.  [setup_logger], which only configures log
    handlers, is left out. *)

From Stdlib Require Import ZArith List String Ascii Bool Lia DecimalString.
Import ListNotations.
Local Open Scope string_scope.
Local Open Scope Z_scope.

(** ** Python values *)

(** The exception classes the program distinguishes: [except Exception]
    catches [PyException] only; [KeyboardInterrupt] and [SystemExit] derive
    from [BaseException]. *)
Inductive PyExc : Type :=
| PyException (msg : string)
| PyKeyboardInterrupt
| PySystemExit (code : Z).

(** [str(e)] *)
Definition str_exc (e : PyExc) : string :=
  match e with
  | PyException msg => msg
  | PyKeyboardInterrupt => ""
  | PySystemExit code => NilZero.string_of_int (Z.to_int code)
  end.

(** [str(n)] for an integer, as used by the f-strings. *)
Definition str_int (n : Z) : string := NilZero.string_of_int (Z.to_int n).

(** What a call into a library or into the operating system does: it
    returns a value or raises an instance of [Exception]. *)
Inductive outcome (A : Type) : Type :=
| Returns (a : A)
| Throws (msg : string).
Arguments Returns {A} a.
Arguments Throws {A} msg.

(** An image buffer as [cap.read()] hands it out. *)
Definition Frame : Type := list Z.

(** [datetime.datetime.now()] *)
Record DateTime : Type := mkDateTime {
  dt_year : Z; dt_month : Z; dt_day : Z;
  dt_hour : Z; dt_minute : Z; dt_second : Z
}.

(** A [cv2.VideoCapture] object: [cap_id] numbers the objects in creation
    order, [cap_dev] is the index it was constructed with and [cap_opened]
    is what [isOpened()] answers on the fresh object (the program calls
    [isOpened()] only directly after the constructor). *)
Record Cap : Type := mkCap { cap_id : nat; cap_dev : Z; cap_opened : bool }.

(** ** The history of external calls *)

Inductive Event : Type :=
| EvWinDLL (name : string) (r : outcome unit)
| EvMessageBox (text title : string) (style : Z) (r : outcome Z)
| EvLockWorkStation (r : outcome Z)
| EvOpen (c : Cap)
| EvOpenThrow (dev : Z) (msg : string)
| EvSet (c : Cap) (prop value : Z) (r : outcome bool)
| EvRead (c : Cap) (r : outcome (bool * option Frame))
| EvRelease (c : Cap)
| EvSleep (milliseconds : Z)
| EvNow (t : DateTime)
| EvImwrite (path : string) (f : Frame) (r : outcome bool)
| EvPrint (text : string).

(** Newest event first. *)
Definition History : Type := list Event.

(** The outside world.  Every answer may depend on everything that happened
    before, so a device can change between two uses. *)
Record Env : Type := mkEnv {
  sys_frozen : bool;
  (** [os.path.dirname(os.path.abspath(sys.executable))] *)
  executable_dir : string;
  (** [os.path.dirname(os.path.abspath(__file__))] *)
  script_dir : string;
  WinDLL : History -> string -> outcome unit;
  MessageBoxW : History -> string -> string -> Z -> outcome Z;
  LockWorkStation : History -> outcome Z;
  (** [cv2.VideoCapture(dev)]: raises, or returns an object that is opened
      or not. *)
  VideoCapture : History -> Z -> outcome bool;
  VideoCapture_set : History -> Cap -> Z -> Z -> outcome bool;
  VideoCapture_read : History -> Cap -> outcome (bool * option Frame);
  imwrite : History -> string -> Frame -> outcome bool;
  datetime_now : History -> DateTime
}.

Inductive Level : Type := INFO | WARNING | ERROR.

(** The machine state: the history, the log records written so far (newest
    first) and the local variable [cap] of [capture_image], which its
    [finally] clause reads after the [try] block has been left. *)
Record State : Type := mkState {
  hist : History;
  logs : list (Level * string);
  var_cap : option Cap
}.

Definition init_state : State := mkState [] [] None.

(** ** The monad: state plus Python exceptions *)

Inductive result (A : Type) : Type :=
| Ok (a : A)
| Raise (e : PyExc).
Arguments Ok {A} a.
Arguments Raise {A} e.

Definition M (A : Type) : Type := State -> result A * State.

Definition ret {A} (a : A) : M A := fun s => (Ok a, s).

Definition bind {A B} (m : M A) (k : A -> M B) : M B :=
  fun s => match m s with
           | (Ok a, s') => k a s'
           | (Raise e, s') => (Raise e, s')
           end.

Definition raise {A} (e : PyExc) : M A := fun s => (Raise e, s).

Notation "x <- c1 ;; c2" := (bind c1 (fun x => c2))
  (at level 61, c1 at next level, right associativity).
Notation "c1 ;; c2" := (bind c1 (fun _ => c2))
  (at level 61, right associativity).

(** [try: body except <classes>: handler]; [handler e = None] when no
    clause matches [e]. *)
Definition try_except {A} (body : M A) (handler : PyExc -> option (M A)) : M A :=
  fun s => match body s with
           | (Ok a, s') => (Ok a, s')
           | (Raise e, s') =>
               match handler e with
               | Some h => h s'
               | None => (Raise e, s')
               end
           end.

(** [except Exception as e: h(e)] *)
Definition except_Exception {A} (h : PyExc -> M A) (e : PyExc) : option (M A) :=
  match e with
  | PyException _ => Some (h e)
  | _ => None
  end.

(** a bare [except:] *)
Definition except_all {A} (h : M A) (e : PyExc) : option (M A) := Some h.

(** [try: body finally: fin]: [fin] runs on every way out of [body]; the
    outcome of [body] stands unless [fin] itself raises. *)
Definition try_finally {A} (body : M A) (fin : M unit) : M A :=
  fun s => match body s with
           | (r, s') =>
               match fin s' with
               | (Ok _, s'') => (r, s'')
               | (Raise e, s'') => (Raise e, s'')
               end
           end.

Definition push (e : Event) (s : State) : State :=
  mkState (e :: hist s) (logs s) (var_cap s).

(** [self.logger.info/warning/error(msg)]; the logging module never lets a
    handler error escape. *)
Definition log (lvl : Level) (msg : string) : M unit :=
  fun s => (Ok tt, mkState (hist s) ((lvl, msg) :: logs s) (var_cap s)).

(** A call answered by the environment, recorded in the history. *)
Definition call {A} (ask : History -> outcome A) (ev : outcome A -> Event) : M A :=
  fun s => let r := ask (hist s) in
           match r with
           | Returns a => (Ok a, push (ev r) s)
           | Throws msg => (Raise (PyException msg), push (ev r) s)
           end.

(** ** Library functions the program uses *)

(** [range(n)] *)
Definition range (n : nat) : list Z := map Z.of_nat (seq 0 n).

Definition digit (n : Z) : ascii := ascii_of_nat (48 + Z.to_nat (n mod 10)).

(** [%m], [%d], [%H], [%M], [%S]: two digits, zero padded. *)
Definition pad2 (n : Z) : string :=
  String (digit (n / 10)) (String (digit n) EmptyString).

(** [%Y]: four digits. *)
Definition pad4 (n : Z) : string :=
  String (digit (n / 1000)) (String (digit (n / 100)) (pad2 n)).

(** [t.strftime("%Y%m%d_%H%M%S")] *)
Definition strftime (t : DateTime) : string :=
  pad4 (dt_year t) ++ pad2 (dt_month t) ++ pad2 (dt_day t) ++ "_" ++
  pad2 (dt_hour t) ++ pad2 (dt_minute t) ++ pad2 (dt_second t).

Definition is_sep (a : ascii) : bool :=
  (Ascii.eqb a "\") || (Ascii.eqb a "/").

Fixpoint last_char (p : string) : option ascii :=
  match p with
  | EmptyString => None
  | String a EmptyString => Some a
  | String _ rest => last_char rest
  end.

(** [ntpath.splitdrive] on drive-letter paths (UNC shares are not
    modelled). *)
Definition splitdrive (p : string) : string * string :=
  match p with
  | String a (String b rest) =>
      if Ascii.eqb b ":"
      then (String a (String b EmptyString), rest)
      else (EmptyString, p)
  | _ => (EmptyString, p)
  end.

(** [os.path.join(path, name)] of the Windows path module, for a second
    component that is a bare file name (no drive, not rooted): a backslash
    is put between the two unless the directory part is empty or already
    ends in a separator. *)
Definition os_path_join (path name : string) : string :=
  let (drive, dir) := splitdrive path in
  let dir := match last_char dir with
             | Some a => if is_sep a then dir else dir ++ "\"
             | None => dir
             end in
  drive ++ dir ++ name.


(** The line feed of the f-strings' [\n]. *)
Definition nl : string := String (ascii_of_nat 10) EmptyString.

(** Truthiness of an optional string ([if image_path:]). *)
Definition truthy (p : option string) : bool :=
  match p with
  | Some (String _ _) => true
  | _ => false
  end.

(** ** The program *)

Definition APP_NAME : string := "LockAndCapture".
Definition VERSION : string := "1.0".

Definition MB_OK : Z := 0x00.
Definition MB_OKCANCEL : Z := 0x01.
Definition MB_ICONINFORMATION : Z := 0x40.
Definition MB_ICONWARNING : Z := 0x30.
Definition MB_ICONERROR : Z := 0x10.

(** Button codes of [MessageBoxW]. *)
Definition IDOK : Z := 1.
Definition IDCANCEL : Z := 2.

Definition CAP_PROP_FRAME_WIDTH : Z := 3.
Definition CAP_PROP_FRAME_HEIGHT : Z := 4.

(** The texts of the dialogs [run] shows. *)
Definition msg_about_to_lock : string := "系统即将锁定并拍照，请准备...".
Definition msg_no_camera : string := "未检测到可用摄像头，是否仍要锁定系统？".
Definition msg_capture_failed : string := "拍照失败，但系统仍将锁定".
Definition msg_lock_failed : string := "锁定系统失败".

(** The instance attributes of [LockAndCaptureApp] that the methods read. *)
Record App : Type := mkApp { app_dir : string }.

Section Program.

Variable env : Env.

(** *** OpenCV and the operating system *)

Definition next_cap_id (h : History) : nat :=
  List.length (filter (fun e => match e with EvOpen _ => true | _ => false end) h).

Definition cv2_VideoCapture (dev : Z) : M Cap :=
  fun s => match VideoCapture env (hist s) dev with
           | Returns opened =>
               let c := mkCap (next_cap_id (hist s)) dev opened in
               (Ok c, push (EvOpen c) s)
           | Throws msg => (Raise (PyException msg), push (EvOpenThrow dev msg) s)
           end.

Definition isOpened (c : Cap) : M bool := ret (cap_opened c).

Definition cap_set (c : Cap) (prop value : Z) : M bool :=
  call (fun h => VideoCapture_set env h c prop value) (EvSet c prop value).

Definition cap_read (c : Cap) : M (bool * option Frame) :=
  call (fun h => VideoCapture_read env h c) (EvRead c).

Definition cap_release (c : Cap) : M unit :=
  fun s => (Ok tt, push (EvRelease c) s).

Definition cv2_imwrite (path : string) (f : Frame) : M bool :=
  call (fun h => imwrite env h path f) (EvImwrite path f).

Definition time_sleep (milliseconds : Z) : M unit :=
  fun s => (Ok tt, push (EvSleep milliseconds) s).

Definition now : M DateTime :=
  fun s => let t := datetime_now env (hist s) in (Ok t, push (EvNow t) s).

Definition print (text : string) : M unit :=
  fun s => (Ok tt, push (EvPrint text) s).

Definition user32_MessageBoxW (text title : string) (style : Z) : M Z :=
  call (fun h => MessageBoxW env h text title style) (EvMessageBox text title style).

Definition user32_LockWorkStation : M Z :=
  call (LockWorkStation env) EvLockWorkStation.

(** *** [LockAndCaptureApp] *)

Definition _load_windows_api : M unit :=
  try_except
    (call (fun h => WinDLL env h "User32.dll") (EvWinDLL "User32.dll"))
    (except_Exception (fun e =>
       log ERROR ("加载Windows API失败: " ++ str_exc e) ;;
       raise e)).

(** [__init__] *)
Definition LockAndCaptureApp : M App :=
  let dir := if sys_frozen env then executable_dir env else script_dir env in
  _load_windows_api ;;
  ret (mkApp dir).

Definition show_message (message title : string) (icon_type : option Z) : M Z :=
  let icon_type := match icon_type with
                   | None => MB_ICONINFORMATION
                   | Some t => t
                   end in
  user32_MessageBoxW message title icon_type.

Definition lock_workstation : M bool :=
  try_except
    (r <- user32_LockWorkStation ;;
     if negb (r =? 0)
     then log INFO "系统已锁定" ;; ret true
     else log ERROR "锁定系统失败" ;; ret false)
    (except_Exception (fun e =>
       log ERROR ("锁定系统时发生错误: " ++ str_exc e) ;;
       ret false)).

(** *** Camera Locator *)

Fixpoint detect_camera_loop (indices : list Z) : M (option Z) :=
  match indices with
  | [] => ret None
  | i :: rest =>
      cap <- cv2_VideoCapture i ;;
      opened <- isOpened cap ;;
      if opened then
        r <- cap_read cap ;;
        if fst r then
          cap_release cap ;;
          log INFO ("检测到摄像头: ID " ++ str_int i) ;;
          ret (Some i)
        else
          cap_release cap ;;
          detect_camera_loop rest
      else
        detect_camera_loop rest
  end.

(** Returns the index found, or [-1]. *)
Definition detect_camera : M Z :=
  try_except
    (log INFO "开始检测摄像头..." ;;
     found <- detect_camera_loop (range 5) ;;
     match found with
     | Some i => ret i
     | None => log WARNING "未检测到可用摄像头" ;; ret (-1)
     end)
    (except_Exception (fun e =>
       log ERROR ("检测摄像头时发生错误: " ++ str_exc e) ;;
       ret (-1))).

(** *** Capturer *)

Definition set_var_cap (c : option Cap) : M unit :=
  fun s => (Ok tt, mkState (hist s) (logs s) c).

Definition get_var_cap : M (option Cap) := fun s => (Ok (var_cap s), s).

(** [for i in range(3): ret, frame = cap.read(); if not ret: log; continue].
    Every iteration rebinds [frame] to what the read returned.  ([frame] is
    unbound before the first iteration; the loop always runs at least once
    before it is read.) *)
Fixpoint capture_read_loop (indices : list Z) (cap : Cap) (frame : option Frame)
  : M (option Frame) :=
  match indices with
  | [] => ret frame
  | i :: rest =>
      r <- cap_read cap ;;
      (if negb (fst r)
       then log ERROR ("第 " ++ str_int (i + 1) ++ " 次读取图像失败")
       else ret tt) ;;
      capture_read_loop rest cap (snd r)
  end.

Definition capture_filename (t : DateTime) : string :=
  "capture_" ++ strftime t ++ ".jpg".

(** Returns the path of the saved image, or [None]. *)
Definition capture_image (app : App) (camera_id : Z) : M (option string) :=
  set_var_cap None ;;
  try_finally
    (try_except
       (cap <- cv2_VideoCapture camera_id ;;
        set_var_cap (Some cap) ;;
        opened <- isOpened cap ;;
        if negb opened then
          log ERROR ("无法打开摄像头 " ++ str_int camera_id) ;;
          ret None
        else
          cap_set cap CAP_PROP_FRAME_WIDTH 1280 ;;
          cap_set cap CAP_PROP_FRAME_HEIGHT 720 ;;
          log INFO "摄像头初始化中..." ;;
          time_sleep 500 ;;
          frame <- capture_read_loop (range 3) cap None ;;
          match frame with
          | None =>
              log ERROR "无法捕获图像" ;;
              ret None
          | Some f =>
              t <- now ;;
              let filepath := os_path_join (app_dir app) (capture_filename t) in
              success <- cv2_imwrite filepath f ;;
              if success then
                log INFO ("成功捕获图像并保存至: " ++ filepath) ;;
                ret (Some filepath)
              else
                log ERROR ("保存图像失败: " ++ filepath) ;;
                ret None
          end)
       (except_Exception (fun e =>
          log ERROR ("捕获图像时发生错误: " ++ str_exc e) ;;
          ret None)))
    (c <- get_var_cap ;;
     match c with
     | Some cap => cap_release cap
     | None => ret tt
     end).

(** *** Orchestrator *)

(** The part of [run] from the capture step on (what an early [return] at
    the confirmation skips). *)
Definition run_capture_and_lock (app : App) (camera_id : Z) : M unit :=
  (if negb (camera_id =? -1) then
     image_path <- capture_image app camera_id ;;
     if truthy image_path then
       log INFO ("图像已保存: " ++ match image_path with Some p => p | None => "" end)
     else
       show_message msg_capture_failed APP_NAME (Some MB_ICONWARNING) ;;
       ret tt
   else ret tt) ;;
  log INFO "准备锁定系统..." ;;
  time_sleep 1000 ;;
  success <- lock_workstation ;;
  if negb success then
    show_message msg_lock_failed APP_NAME (Some MB_ICONERROR) ;;
    ret tt
  else ret tt.

(** The first two statements of [run]: the start-up log record and the
    opening notice. *)
Definition run_opening : M Z :=
  log INFO ("启动 " ++ APP_NAME ++ " v" ++ VERSION) ;;
  show_message msg_about_to_lock APP_NAME (Some MB_ICONINFORMATION).

(** The [try] block of [run]. *)
Definition run_body (app : App) : M unit :=
  run_opening ;;
  camera_id <- detect_camera ;;
  if camera_id =? -1 then
    result <- show_message msg_no_camera APP_NAME
                (Some (Z.lor MB_ICONWARNING MB_OKCANCEL)) ;;
    if negb (result =? 1) then
      log INFO "用户取消操作" ;;
      ret tt
    else run_capture_and_lock app camera_id
  else run_capture_and_lock app camera_id.

(** The text of the error dialog of [run]'s [except Exception] clause. *)
Definition msg_run_error (detail : string) : string :=
  "应用运行时发生错误:" ++ nl ++ detail.

Definition run_handlers (e : PyExc) : option (M unit) :=
  match e with
  | PyKeyboardInterrupt => Some (log INFO "用户中断操作")
  | PyException _ =>
      Some (log ERROR ("应用运行时发生错误: " ++ str_exc e) ;;
            show_message (msg_run_error (str_exc e)) APP_NAME
              (Some MB_ICONERROR) ;;
            ret tt)
  | PySystemExit _ => None
  end.

Definition run (app : App) : M unit :=
  try_finally (try_except (run_body app) run_handlers) (log INFO "应用退出").

(** *** Entry point *)

Definition sys_exit (code : Z) : M unit := raise (PySystemExit code).

Definition main : M unit :=
  try_except
    (app <- LockAndCaptureApp ;;
     run app)
    (except_Exception (fun e =>
       try_except
         (user32_MessageBoxW ("应用启动失败:" ++ nl ++ str_exc e) APP_NAME 0x10 ;;
          ret tt)
         (except_all (print ("应用启动失败: " ++ str_exc e))) ;;
       sys_exit 1)).

End Program.

(** The status the process ends with when [main()] is the whole script:
    0 when it returns, the argument of [sys.exit], 1 for an exception nobody
    caught. *)
Definition exit_code (r : result unit) : Z :=
  match r with
  | Ok _ => 0
  | Raise (PySystemExit code) => code
  | Raise _ => 1
  end.

(** ** History observers *)

Definition is_lock_event (e : Event) : bool :=
  match e with EvLockWorkStation _ => true | _ => false end.

Definition lock_attempts (h : History) : nat := List.length (filter is_lock_event h).

(** The capture objects constructed in a stretch of history. *)
Definition opened_caps (evs : History) : list Cap :=
  flat_map (fun e => match e with EvOpen c => [c] | _ => [] end) evs.

Definition is_release_of (c : Cap) (e : Event) : bool :=
  match e with
  | EvRelease c' => Nat.eqb (cap_id c') (cap_id c)
  | _ => false
  end.

(** How often [release()] was called on [c]. *)
Definition releases (c : Cap) (evs : History) : nat :=
  List.length (filter (is_release_of c) evs).

Definition is_release (e : Event) : bool :=
  match e with EvRelease _ => true | _ => false end.

(** The handles that are open after the events [evs] (newest first), when
    the handles [l] were open before them. *)
Fixpoint live_after (l : list nat) (evs : History) : list nat :=
  match evs with
  | [] => l
  | EvOpen c :: older =>
      if cap_opened c then cap_id c :: live_after l older else live_after l older
  | EvRelease c :: older => remove Nat.eq_dec (cap_id c) (live_after l older)
  | _ :: older => live_after l older
  end.

Definition live (h : History) : list nat := live_after [] h.


(** What the reads in a stretch of history returned, oldest first. *)
Definition reads_of (evs : History) : list (outcome (bool * option Frame)) :=
  rev (flat_map (fun e => match e with EvRead _ r => [r] | _ => [] end) evs).

(** The image writes in a stretch of history, oldest first. *)
Definition writes_of (evs : History) : list (string * Frame * outcome bool) :=
  rev (flat_map (fun e => match e with
                          | EvImwrite p f r => [(p, f, r)]
                          | _ => []
                          end) evs).

(** The clock readings in a stretch of history, oldest first. *)
Definition clock_of (evs : History) : list DateTime :=
  rev (flat_map (fun e => match e with EvNow t => [t] | _ => [] end) evs).

(** An event that records a call answered with an exception. *)
Definition raised (e : Event) : bool :=
  match e with
  | EvOpenThrow _ _
  | EvWinDLL _ (Throws _)
  | EvMessageBox _ _ _ (Throws _)
  | EvLockWorkStation (Throws _)
  | EvSet _ _ _ (Throws _)
  | EvRead _ (Throws _)
  | EvImwrite _ _ (Throws _) => true
  | _ => false
  end.

Definition is_dialog (e : Event) : bool :=
  match e with EvMessageBox _ _ _ _ => true | _ => false end.

(** ** What a run of the Camera Locator looks like *)

(** How the probe of one index ends. *)
Inductive probe_end : Type := Works | Fails | Aborts (msg : string).

(** [cycle env h i evs e]: probing index [i] after the history [h] adds the
    events [evs] (newest first) and ends as [e].  The device either does not
    open, or opens and is read once and released; a constructor or a read
    that raises ends the probe on the spot. *)
Inductive cycle (env : Env) (h : History) (i : Z) : History -> probe_end -> Prop :=
| cycle_not_opened :
    VideoCapture env h i = Returns false ->
    cycle env h i [EvOpen (mkCap (next_cap_id h) i false)] Fails
| cycle_no_frame (f : option Frame) :
    let c := mkCap (next_cap_id h) i true in
    VideoCapture env h i = Returns true ->
    VideoCapture_read env (EvOpen c :: h) c = Returns (false, f) ->
    cycle env h i [EvRelease c; EvRead c (Returns (false, f)); EvOpen c] Fails
| cycle_frame (f : option Frame) :
    let c := mkCap (next_cap_id h) i true in
    VideoCapture env h i = Returns true ->
    VideoCapture_read env (EvOpen c :: h) c = Returns (true, f) ->
    cycle env h i [EvRelease c; EvRead c (Returns (true, f)); EvOpen c] Works
| cycle_open_raises (msg : string) :
    VideoCapture env h i = Throws msg ->
    cycle env h i [EvOpenThrow i msg] (Aborts msg)
| cycle_read_raises (msg : string) :
    let c := mkCap (next_cap_id h) i true in
    VideoCapture env h i = Returns true ->
    VideoCapture_read env (EvOpen c :: h) c = Throws msg ->
    cycle env h i [EvRead c (Throws msg); EvOpen c] (Aborts msg).

(** How the whole probe ends. *)
Inductive verdict : Type := Found (i : Z) | Exhausted | Aborted (msg : string).

(** What [detect_camera] returns for each verdict. *)
Definition verdict_index (v : verdict) : Z :=
  match v with
  | Found i => i
  | Exhausted => -1
  | Aborted _ => -1
  end.

(** [probes env h indices evs v]: probing the indices in order after [h]
    adds the events [evs] and ends as [v]: every index before the last one
    probed failed, and the last one probed works, or raised, or was the
    last of the list. *)
Inductive probes (env : Env) : History -> list Z -> History -> verdict -> Prop :=
| probes_exhausted h :
    probes env h [] [] Exhausted
| probes_found h i rest evs :
    cycle env h i evs Works ->
    probes env h (i :: rest) evs (Found i)
| probes_aborted h i rest evs msg :
    cycle env h i evs (Aborts msg) ->
    probes env h (i :: rest) evs (Aborted msg)
| probes_next h i rest evs1 evs2 v :
    cycle env h i evs1 Fails ->
    probes env (evs1 ++ h)%list rest evs2 v ->
    probes env h (i :: rest) (evs2 ++ evs1)%list v.

(** Every index of the list was probed and failed. *)
Definition all_failed (env : Env) (indices : list Z) : Prop :=
  forall j, In j indices -> exists h evs, cycle env h j evs Fails.

(** Constructor calls in a stretch of history: one per probe cycle. *)
Definition constructor_calls (evs : History) : nat :=
  List.length (filter (fun e => match e with
                                | EvOpen _ | EvOpenThrow _ _ => true
                                | _ => false
                                end) evs).


(** ** Concrete environments *)

Definition frame1 : Frame := [1].
Definition frame2 : Frame := [2].

(** 2024-03-05 09:08:07 *)
Definition clock_reading : DateTime := mkDateTime 2024 3 5 9 8 7.

Definition reads_so_far (h : History) : nat :=
  List.length (filter (fun e => match e with EvRead _ _ => true | _ => false end) h).

(** Every device works, every dialog is answered with OK, the lock
    succeeds. *)
Definition env_fine : Env :=
  mkEnv false "C:\dist" "C:\tools\lock"
    (fun _ _ => Returns tt)
    (fun _ _ _ _ => Returns IDOK)
    (fun _ => Returns 1)
    (fun _ _ => Returns true)
    (fun _ _ _ _ => Returns true)
    (fun _ _ => Returns (true, Some frame1))
    (fun _ _ _ => Returns true)
    (fun _ => clock_reading).

Definition with_read (e : Env)
  (read : History -> Cap -> outcome (bool * option Frame)) : Env :=
  mkEnv (sys_frozen e) (executable_dir e) (script_dir e) (WinDLL e)
    (MessageBoxW e) (LockWorkStation e) (VideoCapture e) (VideoCapture_set e)
    read (imwrite e) (datetime_now e).

Definition with_open (e : Env) (open : History -> Z -> outcome bool) : Env :=
  mkEnv (sys_frozen e) (executable_dir e) (script_dir e) (WinDLL e)
    (MessageBoxW e) (LockWorkStation e) open (VideoCapture_set e)
    (VideoCapture_read e) (imwrite e) (datetime_now e).

Definition with_dialog (e : Env)
  (dialog : History -> string -> string -> Z -> outcome Z) : Env :=
  mkEnv (sys_frozen e) (executable_dir e) (script_dir e) (WinDLL e)
    dialog (LockWorkStation e) (VideoCapture e) (VideoCapture_set e)
    (VideoCapture_read e) (imwrite e) (datetime_now e).


(** The first two reads deliver a frame, the third fails the way OpenCV
    reports it: [(False, None)]. *)
Definition env_third_read_fails : Env :=
  with_read env_fine
    (fun h _ => match reads_so_far h with
                | O => Returns (true, Some frame1)
                | S O => Returns (true, Some frame2)
                | _ => Returns (false, None)
                end).

(** Device 0 opens but its read raises; every other device works. *)
Definition env_first_read_raises : Env :=
  with_read env_fine
    (fun _ c => if cap_dev c =? 0
                then Throws "device error"
                else Returns (true, Some frame1)).

(** No device opens. *)
Definition env_no_camera : Env := with_open env_fine (fun _ _ => Returns false).

(** No device opens and the confirmation (the OK/Cancel dialog) is answered
    with Cancel. *)
Definition env_no_camera_cancel : Env :=
  with_dialog env_no_camera
    (fun _ _ _ style => if style =? 0x31 then Returns IDCANCEL else Returns IDOK).



(** User32.dll loads, but every message box raises. *)
Definition env_dialogs_raise : Env :=
  with_dialog env_fine (fun _ _ _ _ => Throws "dialog error").

Definition app_fine : App := mkApp "C:\tools\lock".

(** ** Logging set-up *)

(** [logging.Formatter(fmt, datefmt=...)] *)
Record Formatter : Type := mkFormatter { fmt : string; datefmt : string }.

(** The two handler classes [setup_logger] creates, with the level and the
    formatter it gives them. *)
Inductive Handler : Type :=
| StreamHandler (stream : string) (level : Level) (formatter : Formatter)
| FileHandler (path encoding : string) (level : Level) (formatter : Formatter).

(** The logger object [logging.getLogger(APP_NAME)] hands out: the same
    object on every call, so what an earlier set-up left in it is still
    there. *)
Record Logger : Type := mkLogger {
  logger_name : string;
  logger_level : option Level;
  logger_handlers : list Handler
}.

Definition log_formatter : Formatter :=
  mkFormatter "%(asctime)s - %(name)s - %(levelname)s - %(message)s"
              "%Y-%m-%d %H:%M:%S".

(** The directory both [setup_logger] and [__init__] compute. *)
Definition program_dir (env : Env) : string :=
  if sys_frozen env then executable_dir env else script_dir env.

Definition log_path (env : Env) : string :=
  os_path_join (program_dir env) (APP_NAME ++ ".log").

(** [setup_logger()], on the logger object [logger] of the registry.
    [open_log path] is what [logging.FileHandler(path, encoding='utf-8')]
    does: it opens the file, or raises.  The result is the logger and the
    records written while setting it up. *)
Definition setup_logger (env : Env) (open_log : string -> outcome unit)
  (logger : Logger) : Logger * list (Level * string) :=
  (* logger.setLevel(logging.INFO); logger.handlers.clear() *)
  let logger := mkLogger (logger_name logger) (Some INFO) [] in
  let formatter := log_formatter in
  let console_handler := StreamHandler "sys.stdout" INFO formatter in
  let logger := mkLogger (logger_name logger) (logger_level logger)
                  (logger_handlers logger ++ [console_handler])%list in
  match open_log (log_path env) with
  | Returns _ =>
      let file_handler := FileHandler (log_path env) "utf-8" INFO formatter in
      (mkLogger (logger_name logger) (logger_level logger)
         (logger_handlers logger ++ [file_handler])%list, [])
  | Throws msg =>
      (logger, [(ERROR, "无法创建日志文件: " ++ msg)])
  end.

(** ** More observers *)

(** How many events of a kind a stretch of history has. *)
Definition count (p : Event -> bool) (h : History) : nat :=
  List.length (filter p h).

Definition is_write (e : Event) : bool :=
  match e with EvImwrite _ _ _ => true | _ => false end.

Definition is_constructor (e : Event) : bool :=
  match e with EvOpen _ | EvOpenThrow _ _ => true | _ => false end.

(** The events a probe of the Camera Locator can add. *)
Definition probe_event (e : Event) : bool :=
  match e with
  | EvOpen _ | EvOpenThrow _ _ | EvRead _ _ | EvRelease _ => true
  | _ => false
  end.

(** The events the Capturer can add. *)
Definition capture_event (e : Event) : bool :=
  match e with
  | EvOpen _ | EvOpenThrow _ _ | EvSet _ _ _ _ | EvSleep _ | EvRead _ _
  | EvNow _ | EvImwrite _ _ _ | EvRelease _ => true
  | _ => false
  end.

(** The events of a history in the order they happened, up to the first
    read. *)
Fixpoint until_first_read (chronological : list Event) : list Event :=
  match chronological with
  | [] => []
  | EvRead _ _ :: _ => []
  | e :: rest => e :: until_first_read rest
  end.

(** A dialog as [run] and [main] show them: the title is the application
    name, and the only dialog with a Cancel button is the confirmation
    asked when no camera was found. *)
Definition dialog_in_style (e : Event) : bool :=
  match e with
  | EvMessageBox text title style _ =>
      String.eqb title APP_NAME &&
      ((style =? MB_ICONINFORMATION) || (style =? MB_ICONWARNING) ||
       (style =? MB_ICONERROR) ||
       ((style =? Z.lor MB_ICONWARNING MB_OKCANCEL) && String.eqb text msg_no_camera))
  | _ => true
  end.

(** Whether the answer of [LockWorkStation] counts as locked. *)
Definition lock_succeeded (answer : outcome Z) : bool :=
  match answer with
  | Returns n => negb (n =? 0)
  | Throws _ => false
  end.

(** The log record [lock_workstation] writes when the lock worked. *)
Definition says_locked (record : Level * string) : bool :=
  String.eqb (snd record) "系统已锁定".

(** A lock call that worked. *)
Definition locked_event (e : Event) : bool :=
  match e with
  | EvLockWorkStation answer => lock_succeeded answer
  | _ => false
  end.

(** How many records of a kind a log has. *)
Definition tally (p : Level * string -> bool) (l : list (Level * string)) : nat :=
  List.length (filter p l).

(** A clock reading [datetime] can hold. *)
Definition valid_clock (t : DateTime) : Prop :=
  0 <= dt_year t < 10000 /\ 0 <= dt_month t < 100 /\ 0 <= dt_day t < 100 /\
  0 <= dt_hour t < 100 /\ 0 <= dt_minute t < 100 /\ 0 <= dt_second t < 100.

(** User32.dll cannot be loaded. *)
Definition env_no_user32 : Env :=
  mkEnv false "C:\dist" "C:\tools\lock"
    (fun _ _ => Throws "module not found")
    (fun _ _ _ _ => Returns IDOK)
    (fun _ => Returns 1)
    (fun _ _ => Returns true)
    (fun _ _ _ _ => Returns true)
    (fun _ _ => Returns (true, Some frame1))
    (fun _ _ _ => Returns true)
    (fun _ => clock_reading).

(** The lock call reports failure. *)
Definition env_lock_fails : Env :=
  mkEnv false "C:\dist" "C:\tools\lock"
    (fun _ _ => Returns tt)
    (fun _ _ _ _ => Returns IDOK)
    (fun _ => Returns 0)
    (fun _ _ => Returns false)
    (fun _ _ _ _ => Returns true)
    (fun _ _ => Returns (true, Some frame1))
    (fun _ _ _ => Returns true)
    (fun _ => clock_reading).

Definition empty_logger : Logger := mkLogger APP_NAME None [].

(** ** Symbolic execution *)

Arguments str_int : simpl never.
Arguments os_path_join : simpl never.
Arguments capture_filename : simpl never.
Arguments next_cap_id : simpl never.
Arguments detect_camera : simpl never.
Arguments capture_image : simpl never.
Arguments run_body : simpl never.
Arguments msg_run_error : simpl never.
Arguments LockAndCaptureApp : simpl never.

(** The events that [l] has on top of [h]. *)
Ltac events_above l h :=
  lazymatch l with
  | h => constr:(@nil Event)
  | ?e :: ?l' => let r := events_above l' h in constr:(e :: r)
  end.

Ltac history_extension :=
  lazymatch goal with
  | |- ?l = (?evs ++ ?h)%list =>
      let p := events_above l h in unify evs p; reflexivity
  end.

Create HintDb prog.
#[local] Hint Unfold ret bind raise try_except try_finally except_Exception except_all
  push log call cv2_VideoCapture isOpened cap_set cap_read cap_release cv2_imwrite
  time_sleep now print user32_MessageBoxW user32_LockWorkStation show_message
  set_var_cap get_var_cap sys_exit : prog.

Ltac reduce := repeat (progress (autounfold with prog; cbn)).

(** One step: split on the next answer of the environment. *)
Ltac exec_step :=
  match goal with
  | |- context [match ?x with _ => _ end] =>
      lazymatch x with
      | context [match _ with _ => _ end] => fail
      | negb ?b => destruct b eqn:?
      | _ => destruct x eqn:?
      end
  end; reduce.

Ltac exec := reduce; repeat exec_step.

Ltac reduce_in H := repeat (progress (autounfold with prog in H; cbn in H)).

(** Uses a hypothesis that fixes how a call of the environment or of a
    component ends. *)
Ltac answer H :=
  first
    [ rewrite H; reduce
    | reduce_in H;
      lazymatch type of H with
      | match ?x with _ => _ end = _ =>
          destruct x eqn:?; inversion H; subst; clear H; reduce
      end ].

Ltac unfold_run :=
  unfold run, run_body, run_opening, run_handlers, run_capture_and_lock,
    lock_workstation in *.

(** * Theorems *)

(** ** The Session Locker *)

(** C8. The Session Locker calls the OS lock primitive exactly once per
    call, never raises, and returns [true] exactly when that call returned
    a non-zero value; when the call raises it returns [false]. *)
Theorem lock_workstation_single_attempt :
  forall (env : Env) (s : State),
    exists (b : bool) (s' : State),
      lock_workstation env s = (Ok b, s') /\
      hist s' = EvLockWorkStation (LockWorkStation env (hist s)) :: hist s /\
      (b = true <-> exists n, LockWorkStation env (hist s) = Returns n /\ n <> 0) /\
      ((exists msg, LockWorkStation env (hist s) = Throws msg) -> b = false).
Proof.
  intros env s.
  unfold lock_workstation, try_except, bind, user32_LockWorkStation, call.
  destruct (LockWorkStation env (hist s)) as [n | msg] eqn:E; simpl.
  - destruct (n =? 0) eqn:En; simpl;
      (eexists; eexists; split; [reflexivity |]; split; [reflexivity |]).
    + apply Z.eqb_eq in En. subst n. split; [split |].
      * discriminate.
      * intros (n & Hn & Hnz). inversion Hn. congruence.
      * reflexivity.
    + apply Z.eqb_neq in En. split; [split |].
      * intros _. exists n. split; [reflexivity | assumption].
      * reflexivity.
      * intros (msg & Hm). discriminate.
  - eexists; eexists; split; [reflexivity |]; split; [reflexivity |].
    split; [split |].
    + discriminate.
    + intros (n & Hn & _). discriminate.
    + reflexivity.
Qed.

(** ** The Capturer *)

(** C2. Whatever happens inside the Capturer -- the device does not open,
    a setting or a read raises, all reads fail, the write fails or
    succeeds -- [capture_image] returns normally, it constructs at most one
    capture object, and on that object [release()] is called exactly once,
    as the last thing before returning.  When the constructor itself raises
    there is no object and no release. *)
Theorem capture_image_releases_exactly_once :
  forall (env : Env) (app : App) (camera_id : Z) (s : State),
    exists (r : option string) (s' : State) (evs : History),
      capture_image env app camera_id s = (Ok r, s') /\
      hist s' = (evs ++ hist s)%list /\
      (List.length (opened_caps evs) <= 1)%nat /\
      (forall c, In c (opened_caps evs) ->
         cap_dev c = camera_id /\
         releases c evs = 1%nat /\
         hd_error evs = Some (EvRelease c)) /\
      (opened_caps evs = [] -> filter is_release evs = []).
Proof.
  intros env app camera_id s.
  unfold capture_image.
  exec;
    (eexists; eexists; eexists; split; [reflexivity |];
     split; [cbn; history_extension |]; cbn;
     split; [lia |]; split;
     [ intros c Hc; cbn in Hc;
       first [ contradiction
             | destruct Hc as [<- | []]; cbn; rewrite Nat.eqb_refl; auto ]
     | first [ discriminate | reflexivity ] ]).
Qed.

(** C1 (as the code has it). The Capturer reads three times in sequence:
    when the device opened and no call raised there are exactly three
    reads, and a read that returns -- whether it reports success or
    failure -- never ends the loop early: a returned read that is the last
    one is the third.  Each read rebinds the frame, so what is kept is what
    the third read delivered: when the three reads returned [r1], [r2],
    [r3], the Capturer reports failure without attempting a write exactly
    when [r3] carries no frame, and otherwise the frame handed to the writer
    is the frame of [r3], whatever [r1] and [r2] were. *)
Theorem capture_image_keeps_third_read :
  forall (env : Env) (app : App) (camera_id : Z) (s : State),
    exists (r : option string) (s' : State) (evs : History),
      capture_image env app camera_id s = (Ok r, s') /\
      hist s' = (evs ++ hist s)%list /\
      (List.length (reads_of evs) <= 3)%nat /\
      (forall c,
         opened_caps evs = [c] -> cap_opened c = true ->
         existsb raised evs = false ->
         List.length (reads_of evs) = 3%nat) /\
      (forall earlier x, reads_of evs = (earlier ++ [Returns x])%list ->
         List.length (reads_of evs) = 3%nat) /\
      (forall r1 r2 r3,
         reads_of evs = [Returns r1; Returns r2; Returns r3] ->
         match snd r3 with
         | None => r = None /\ writes_of evs = []
         | Some f => exists path w, writes_of evs = [(path, f, w)]
         end).
Proof.
  intros env app camera_id s.
  unfold capture_image.
  exec;
    (eexists; eexists; eexists; split; [reflexivity |];
     split; [cbn; history_extension |]; cbn;
     split; [lia |]; split; [| split];
     [ intros c Hc Ho Hq;
       first [ discriminate
             | reflexivity
             | inversion Hc; subst; cbn in Ho; discriminate ]
     | intros [| e1 [| e2 [| e3 [| e4 earlier]]]] x Hx; cbn in Hx;
       solve [ discriminate | reflexivity
             | apply (f_equal (@List.length _)) in Hx; cbn in Hx;
               rewrite ?length_app in Hx; cbn in Hx; lia ]
     | intros r1 r2 r3 Hr; inversion Hr; subst;
       repeat match goal with H : snd _ = _ |- _ => rewrite H end;
       cbn; eauto ]).
Qed.

(** C1, counterexample. Two frames are read successfully and the third
    read fails: the Capturer reports failure and writes nothing, although a
    frame was successfully read. *)
Lemma capture_image_third_read_fails_counterexample :
  exists s' : State,
    capture_image env_third_read_fails app_fine 0 init_state = (Ok None, s') /\
    reads_of (hist s') =
      [Returns (true, Some frame1); Returns (true, Some frame2);
       Returns (false, None)] /\
    writes_of (hist s') = [].
Proof.
  eexists. split; [vm_compute; reflexivity |]. split; reflexivity.
Qed.

(** ** The Camera Locator *)

Lemma detect_camera_loop_probes (env : Env) :
  forall (indices : list Z) (s : State),
    exists (res : result (option Z)) (s' : State) (evs : History) (v : verdict),
      detect_camera_loop env indices s = (res, s') /\
      hist s' = (evs ++ hist s)%list /\
      probes env (hist s) indices evs v /\
      res = match v with
            | Found i => Ok (Some i)
            | Exhausted => Ok None
            | Aborted msg => Raise (PyException msg)
            end.
Proof.
  induction indices as [| i rest IH]; intros s.
  - exists (Ok None), s, [], Exhausted. repeat split. constructor.
  - cbn [detect_camera_loop]. reduce.
    destruct (VideoCapture env (hist s) i) as [[|] | msg] eqn:Hopen; reduce.
    + match goal with
      | |- context [VideoCapture_read env ?h ?c] =>
          destruct (VideoCapture_read env h c) as [[[|] f] | msg] eqn:Hread
      end; reduce.
      * eexists; eexists; eexists; exists (Found i).
        split; [reflexivity |]. split; [cbn; history_extension |].
        split; [| reflexivity].
        apply probes_found. apply cycle_frame; assumption.
      * match goal with
        | |- context [detect_camera_loop env rest ?st] =>
            destruct (IH st) as (res & s' & evs & v & E & Hh & Hp & Hres)
        end.
        cbn in Hh, Hp. rewrite E.
        match type of Hh with
        | _ = (_ ++ ?l)%list =>
            let p := events_above l (hist s) in exists res, s', (evs ++ p)%list, v
        end.
        split; [reflexivity |]. split; [rewrite Hh, <- app_assoc; reflexivity |].
        split; [| assumption].
        eapply probes_next; [apply cycle_no_frame; eassumption | exact Hp].
      * eexists; eexists; eexists; exists (Aborted msg).
        split; [reflexivity |]. split; [cbn; history_extension |].
        split; [| reflexivity].
        apply probes_aborted. apply cycle_read_raises; assumption.
    + match goal with
      | |- context [detect_camera_loop env rest ?st] =>
          destruct (IH st) as (res & s' & evs & v & E & Hh & Hp & Hres)
      end.
      cbn in Hh, Hp. rewrite E.
      match type of Hh with
      | _ = (_ ++ ?l)%list =>
          let p := events_above l (hist s) in exists res, s', (evs ++ p)%list, v
      end.
      split; [reflexivity |]. split; [rewrite Hh, <- app_assoc; reflexivity |].
      split; [| assumption].
      eapply probes_next; [apply cycle_not_opened; eassumption | exact Hp].
    + eexists; eexists; eexists; exists (Aborted msg).
      split; [reflexivity |]. split; [cbn; history_extension |].
      split; [| reflexivity].
      apply probes_aborted. apply cycle_open_raises; assumption.
Qed.

(** [detect_camera] always returns, and its events are a run of probes over
    0..4. *)
Lemma detect_camera_probes (env : Env) (s : State) :
  exists (s' : State) (evs : History) (v : verdict),
    detect_camera env s = (Ok (verdict_index v), s') /\
    hist s' = (evs ++ hist s)%list /\
    probes env (hist s) (range 5) evs v.
Proof.
  unfold detect_camera. remember (range 5) as indices eqn:Hindices. reduce.
  match goal with
  | |- context [detect_camera_loop env ?idx ?st] =>
      destruct (detect_camera_loop_probes env idx st)
        as (res & s' & evs & v & E & Hh & Hp & Hres)
  end.
  cbn in Hh, Hp. cbn in E. rewrite E. subst res.
  destruct v as [i | | msg]; reduce;
    [ eexists; exists evs, (Found i)
    | eexists; exists evs, Exhausted
    | eexists; exists evs, (Aborted msg) ];
    (split; [reflexivity |]); (split; [cbn; exact Hh | exact Hp]).
Qed.

(** ** Open handles *)

Lemma live_after_app (l : list nat) (later earlier : History) :
  live_after l (later ++ earlier)%list = live_after (live_after l earlier) later.
Proof.
  induction later as [| e later IH]; [reflexivity |].
  destruct e; cbn; rewrite ?IH; reflexivity.
Qed.

Lemma remove_only (n : nat) : remove Nat.eq_dec n [n] = [].
Proof. cbn. destruct (Nat.eq_dec n n); [reflexivity | congruence]. Qed.






(** Computes the open handles after a concrete stretch of events on top
    of a history that leaves none open. *)
Ltac live_now :=
  repeat match goal with x := _ |- _ => subst x end;
  unfold live in *; cbn [live_after cap_opened cap_id app];
  repeat match goal with H : live_after [] _ = [] |- _ => rewrite H end;
  rewrite ?remove_only; cbn [remove].


Lemma cycle_live (env : Env) (h : History) (i : Z) (evs : History) (e : probe_end) :
  cycle env h i evs e ->
  live h = [] -> (forall msg, e <> Aborts msg) ->
  live (evs ++ h)%list = [].
Proof.
  intros Hc Hl Hna. destruct Hc; cbn [app];
    try (exfalso; eapply Hna; reflexivity);
    live_now; reflexivity.
Qed.


Lemma probes_live (env : Env) (h : History) (indices : list Z)
  (evs : History) (v : verdict) :
  probes env h indices evs v ->
  live h = [] -> (forall msg, v <> Aborted msg) ->
  live (evs ++ h)%list = [].
Proof.
  induction 1 as [h | h i rest evs Hc | h i rest evs msg Hc
                 | h i rest evs1 evs2 v Hc Hp IH]; intros Hl Hna.
  - assumption.
  - apply (cycle_live _ _ _ _ _ Hc Hl). discriminate.
  - exfalso. eapply Hna. reflexivity.
  - rewrite <- app_assoc. apply IH; [| assumption].
    apply (cycle_live _ _ _ _ _ Hc Hl). discriminate.
Qed.


Lemma cycle_constructor_calls (env : Env) (h : History) (i : Z) (evs : History)
  (e : probe_end) :
  cycle env h i evs e -> constructor_calls evs = 1%nat.
Proof. destruct 1; reflexivity. Qed.

Lemma probes_constructor_calls (env : Env) (h : History) (indices : list Z)
  (evs : History) (v : verdict) :
  probes env h indices evs v ->
  (constructor_calls evs <= List.length indices)%nat.
Proof.
  induction 1 as [h | h i rest evs Hc | h i rest evs msg Hc
                 | h i rest evs1 evs2 v Hc Hp IH]; cbn [List.length].
  - cbn. lia.
  - rewrite (cycle_constructor_calls _ _ _ _ _ Hc). lia.
  - rewrite (cycle_constructor_calls _ _ _ _ _ Hc). lia.
  - unfold constructor_calls in *. rewrite filter_app, length_app.
    pose proof (cycle_constructor_calls _ _ _ _ _ Hc) as H1.
    unfold constructor_calls in H1. lia.
Qed.

(** The indices before the one a run of probes stops at have all failed. *)
Lemma probes_first (env : Env) (h : History) (indices : list Z)
  (evs : History) (v : verdict) :
  probes env h indices evs v ->
  match v with
  | Found k =>
      exists before after,
        indices = (before ++ k :: after)%list /\ all_failed env before /\
        exists hk evk, cycle env hk k evk Works
  | Exhausted => all_failed env indices
  | Aborted msg =>
      exists before i after,
        indices = (before ++ i :: after)%list /\ all_failed env before /\
        exists hi evi, cycle env hi i evi (Aborts msg)
  end.
Proof.
  induction 1 as [h | h i rest evs Hc | h i rest evs msg Hc
                 | h i rest evs1 evs2 v Hc Hp IH].
  - intros j [].
  - exists [], rest. split; [reflexivity |]. split; [intros j [] | eauto].
  - exists [], i, rest. split; [reflexivity |]. split; [intros j [] | eauto].
  - destruct v as [k | | msg].
    + destruct IH as (before & after & -> & Hf & Hw).
      exists (i :: before), after. split; [reflexivity |]. split; [| assumption].
      intros j [<- | Hj]; [eauto | apply Hf; assumption].
    + intros j [<- | Hj]; [eauto | apply IH; assumption].
    + destruct IH as (before & i' & after & -> & Hf & Hw).
      exists (i :: before), i', after. split; [reflexivity |]. split; [| assumption].
      intros j [<- | Hj]; [eauto | apply Hf; assumption].
Qed.

(** A probe that ends with an exception has recorded it. *)
Lemma probes_aborted_raised (env : Env) (h : History) (indices : list Z)
  (evs : History) (v : verdict) :
  probes env h indices evs v ->
  existsb raised evs = false ->
  forall msg, v <> Aborted msg.
Proof.
  induction 1 as [h | h i rest evs Hc | h i rest evs msg Hc
                 | h i rest evs1 evs2 v Hc Hp IH]; intros Hq msg'.
  - discriminate.
  - discriminate.
  - exfalso. inversion Hc; subst; cbn in Hq; discriminate.
  - rewrite existsb_app in Hq. apply orb_false_elim in Hq.
    apply IH. apply (proj1 Hq).
Qed.

(** C3 (as the code has it). For every environment the Camera Locator
    returns, and its events are a run of probe cycles over the indices
    0,1,2,3,4 in ascending order, each cycle being open, or open/read/release.
    When no call raises it returns the first index whose device opens and
    yields a frame -- every index before it was probed and failed, no index
    after it is touched -- or -1 when all five fail, and every handle it
    opened is released again.  When the constructor or the read raises at
    some index, it returns -1 at once.  In every case it makes at most five
    constructor calls. *)
Theorem detect_camera_first_working_index :
  forall (env : Env) (s : State),
    exists (s' : State) (evs : History) (v : verdict),
      detect_camera env s = (Ok (verdict_index v), s') /\
      hist s' = (evs ++ hist s)%list /\
      probes env (hist s) (range 5) evs v /\
      match v with
      | Found k =>
          exists before after,
            range 5 = (before ++ k :: after)%list /\ all_failed env before /\
            exists hk evk, cycle env hk k evk Works
      | Exhausted => all_failed env (range 5)
      | Aborted msg =>
          exists before i after,
            range 5 = (before ++ i :: after)%list /\ all_failed env before /\
            exists hi evi, cycle env hi i evi (Aborts msg)
      end /\
      (constructor_calls evs <= 5)%nat /\
      (existsb raised evs = false -> forall msg, v <> Aborted msg) /\
      (existsb raised evs = false -> live (hist s) = [] -> live (hist s') = []).
Proof.
  intros env s.
  destruct (detect_camera_probes env s) as (s' & evs & v & E & Hh & Hp).
  exists s', evs, v.
  split; [assumption |]. split; [assumption |]. split; [assumption |].
  split; [exact (probes_first _ _ _ _ _ Hp) |].
  split; [exact (probes_constructor_calls _ _ _ _ _ Hp) |].
  split; [exact (probes_aborted_raised _ _ _ _ _ Hp) |].
  intros Hq Hl. rewrite Hh. apply (probes_live _ _ _ _ _ Hp Hl).
  exact (probes_aborted_raised _ _ _ _ _ Hp Hq).
Qed.

(** C3, counterexample. Device 0 opens and its read raises; device 1 would
    open and deliver a frame.  The Camera Locator returns -1 instead of 1,
    and the handle of device 0 has not been released. *)
Lemma detect_camera_read_raises_counterexample :
  exists s' : State,
    detect_camera env_first_read_raises init_state = (Ok (-1), s') /\
    hist s' = [EvRead (mkCap 0 0 true) (Throws "device error");
               EvOpen (mkCap 0 0 true)] /\
    VideoCapture env_first_read_raises (hist s') 1 = Returns true /\
    VideoCapture_read env_first_read_raises
      (EvOpen (mkCap 1 1 true) :: hist s') (mkCap 1 1 true)
      = Returns (true, Some frame1) /\
    live (hist s') = [0%nat].
Proof.
  eexists. split; [vm_compute; reflexivity |]. repeat split.
Qed.

(** ** Paths and file names *)

Lemma append_assoc (a b c : string) : (a ++ b) ++ c = a ++ (b ++ c).
Proof. induction a as [| x a IH]; cbn; [reflexivity | rewrite IH; reflexivity]. Qed.

(** The joined path is the directory, at most one backslash, and the
    name. *)
Lemma os_path_join_inside (dir name : string) :
  exists sep : string,
    (sep = "" \/ sep = "\") /\ os_path_join dir name = dir ++ sep ++ name.
Proof.
  unfold os_path_join, splitdrive.
  destruct dir as [| a [| b rest]].
  - exists "". split; [left; reflexivity | reflexivity].
  - cbn. destruct (is_sep a).
    + exists "". split; [left; reflexivity | reflexivity].
    + exists "\". split; [right; reflexivity | reflexivity].
  - destruct (Ascii.eqb b ":").
    + destruct (last_char rest) as [c |].
      * destruct (is_sep c).
        -- exists "". split; [left; reflexivity | reflexivity].
        -- exists "\". split; [right; reflexivity |].
           cbn. rewrite append_assoc. reflexivity.
      * exists "". split; [left; reflexivity | reflexivity].
    + destruct (last_char (String a (String b rest))) as [c |].
      * destruct (is_sep c).
        -- exists "". split; [left; reflexivity | reflexivity].
        -- exists "\". split; [right; reflexivity |].
           cbn. rewrite append_assoc. reflexivity.
      * exists "". split; [left; reflexivity | reflexivity].
Qed.




(** ** The Orchestrator *)

(** C4. When the opening notice has returned, the Camera Locator returns
    -1 and the confirmation dialog is answered with Cancel, [run] returns
    normally and the history ends with that dialog: no constructor call, no
    lock call, no further dialog; it only writes two log records. *)
Theorem run_cancel_takes_no_further_action :
  forall (env : Env) (app : App) (s s1 s2 s3 : State) (a : Z),
    run_opening env s = (Ok a, s1) ->
    detect_camera env s1 = (Ok (-1), s2) ->
    show_message env msg_no_camera APP_NAME
      (Some (Z.lor MB_ICONWARNING MB_OKCANCEL)) s2 = (Ok IDCANCEL, s3) ->
    exists s4 : State,
      run env app s = (Ok tt, s4) /\
      hist s4 = hist s3 /\
      hd_error (hist s4) =
        Some (EvMessageBox msg_no_camera APP_NAME 0x31 (Returns IDCANCEL)) /\
      logs s4 = (INFO, "应用退出") :: (INFO, "用户取消操作") :: logs s3.
Proof.
  intros env app s s1 s2 s3 a Hopening Hdetect Hconfirm.
  unfold_run. reduce.
  answer Hopening. answer Hdetect. answer Hconfirm.
  eexists. repeat split.
Qed.

(** The theorem at work: no device opens and the user cancels. *)
Lemma run_cancel_witness :
  exists s4 : State,
    run env_no_camera_cancel app_fine init_state = (Ok tt, s4) /\
    lock_attempts (hist s4) = 0%nat /\
    constructor_calls (hist s4) = 5%nat.
Proof.
  edestruct (run_cancel_takes_no_further_action env_no_camera_cancel app_fine init_state)
    as (s4 & E & Hh & _);
    [vm_compute; reflexivity | vm_compute; reflexivity | vm_compute; reflexivity |].
  exists s4. split; [exact E |]. rewrite Hh. split; reflexivity.
Defined.

(** C10. When the Camera Locator returned -1, whatever integer [r] the
    confirmation dialog returns: for [r <> 1] (Cancel = 2, a failed dialog
    = 0, anything else) [run] stops -- it returns with the dialog as the
    last event; for [r = 1] it goes on, without any constructor call, to the
    pause and the lock call. *)
Theorem run_proceeds_only_on_ok :
  forall (env : Env) (app : App) (s s1 s2 s3 : State) (a r : Z),
    run_opening env s = (Ok a, s1) ->
    detect_camera env s1 = (Ok (-1), s2) ->
    show_message env msg_no_camera APP_NAME
      (Some (Z.lor MB_ICONWARNING MB_OKCANCEL)) s2 = (Ok r, s3) ->
    (r <> 1 ->
     exists s4 : State, run env app s = (Ok tt, s4) /\ hist s4 = hist s3) /\
    (r = 1 ->
     exists (res : result unit) (s4 : State) (later : History),
       run env app s = (res, s4) /\
       hist s4 =
         (later ++
          EvLockWorkStation (LockWorkStation env (EvSleep 1000 :: hist s3))
          :: EvSleep 1000 :: hist s3)%list /\
       forallb is_dialog later = true).
Proof.
  intros env app s s1 s2 s3 a r Hopening Hdetect Hconfirm.
  unfold_run. reduce.
  answer Hopening. answer Hdetect. answer Hconfirm.
  split; intros Hr.
  - apply Z.eqb_neq in Hr. rewrite Hr. reduce.
    eexists. split; reflexivity.
  - subst r. exec;
      (eexists; eexists; eexists; split; [reflexivity |];
       split; [cbn; history_extension | reflexivity]).
Qed.

(** The theorem at work: with no device, Cancel stops the run and OK leads
    to one lock call. *)
Lemma run_proceeds_only_on_ok_witness :
  (exists s4 : State,
     run env_no_camera_cancel app_fine init_state = (Ok tt, s4) /\
     lock_attempts (hist s4) = 0%nat) /\
  (exists (res : result unit) (s4 : State),
     run env_no_camera app_fine init_state = (res, s4) /\
     lock_attempts (hist s4) = 1%nat).
Proof.
  split.
  - edestruct (run_proceeds_only_on_ok env_no_camera_cancel app_fine init_state)
      as [Hstop _];
      [vm_compute; reflexivity | vm_compute; reflexivity | vm_compute; reflexivity |].
    destruct Hstop as (s4 & E & Hh); [discriminate |].
    exists s4. split; [exact E |]. rewrite Hh. reflexivity.
  - edestruct (run_proceeds_only_on_ok env_no_camera app_fine init_state)
      as [_ Hgo];
      [vm_compute; reflexivity | vm_compute; reflexivity | vm_compute; reflexivity |].
    destruct Hgo as (res & s4 & later & E & Hh & Hd); [reflexivity |].
    exists res, s4. split; [exact E |].
    vm_compute in E. inversion E. reflexivity.
Defined.




(** ** The components always return *)












(** ** One handle at a time *)



(** ** Two complete runs *)

(** Camera 0 works, the three reads succeed, the lock succeeds: status 0,
    one file written, the opening notice is the only dialog, one lock
    call. *)
Example main_with_camera :
  exists s' : State,
    main env_fine init_state = (Ok tt, s') /\
    exit_code (Ok tt) = 0 /\
    writes_of (hist s') =
      [("C:\tools\lock\capture_20240305_090807.jpg", frame1, Returns true)] /\
    filter is_dialog (hist s') =
      [EvMessageBox msg_about_to_lock APP_NAME MB_ICONINFORMATION (Returns IDOK)] /\
    lock_attempts (hist s') = 1%nat /\
    live (hist s') = [].
Proof.
  eexists. split; [vm_compute; reflexivity |]. repeat split.
Qed.

(** No device opens and the user cancels: status 0, nothing written, five
    probes, no lock call. *)
Example main_without_camera_cancelled :
  exists s' : State,
    main env_no_camera_cancel init_state = (Ok tt, s') /\
    exit_code (Ok tt) = 0 /\
    writes_of (hist s') = [] /\
    constructor_calls (hist s') = 5%nat /\
    lock_attempts (hist s') = 0%nat.
Proof.
  eexists. split; [vm_compute; reflexivity |]. repeat split.
Qed.

(** * Further properties *)

(** ** Start-up *)

(** X1. [LockAndCaptureApp()] tries to load User32.dll exactly once and
    makes no other call.  When the library loads it returns the application
    object, whose directory is the program's, and logs nothing; when the
    load raises it logs one ERROR record carrying the message and raises the
    same exception again. *)
Theorem LockAndCaptureApp_loads_once :
  forall (env : Env) (s : State),
    exists s' : State,
      hist s' = EvWinDLL "User32.dll" (WinDLL env (hist s) "User32.dll") :: hist s /\
      match WinDLL env (hist s) "User32.dll" with
      | Returns _ =>
          LockAndCaptureApp env s = (Ok (mkApp (program_dir env)), s') /\
          logs s' = logs s
      | Throws msg =>
          LockAndCaptureApp env s = (Raise (PyException msg), s') /\
          logs s' = (ERROR, "加载Windows API失败: " ++ msg) :: logs s
      end.
Proof.
  intros env s. unfold LockAndCaptureApp, _load_windows_api, program_dir.
  reduce.
  destruct (WinDLL env (hist s) "User32.dll") as [u | msg]; reduce;
    (eexists; split; cycle 1; [split; reflexivity | reflexivity]).
Qed.

(** X2. When User32.dll cannot be loaded, [main] never touches a camera and
    never calls the lock: it shows the start-up error dialog, prints the
    error instead when that dialog call raises, and leaves through
    [sys.exit(1)]. *)
Theorem main_init_failure_reports_and_exits :
  forall (env : Env) (msg : string),
    WinDLL env [] "User32.dll" = Throws msg ->
    exists s' : State,
      main env init_state = (Raise (PySystemExit 1), s') /\
      (let failed := EvWinDLL "User32.dll" (Throws msg) in
       let text := "应用启动失败:" ++ nl ++ msg in
       let answer := MessageBoxW env [failed] text APP_NAME MB_ICONERROR in
       rev (hist s') =
         failed :: EvMessageBox text APP_NAME MB_ICONERROR answer ::
         match answer with
         | Returns _ => []
         | Throws _ => [EvPrint ("应用启动失败: " ++ msg)]
         end).
Proof.
  intros env msg Hdll.
  unfold main, LockAndCaptureApp, _load_windows_api. reduce.
  rewrite Hdll. reduce.
  change 16 with MB_ICONERROR.
  destruct (MessageBoxW env [EvWinDLL "User32.dll" (Throws msg)]
              ("应用启动失败:" ++ nl ++ msg) APP_NAME MB_ICONERROR) eqn:E;
    cbn in E; rewrite E; reduce; eexists; split; reflexivity.
Qed.

(** The theorem at work: without User32.dll the history is the failed load
    and the start-up dialog. *)
Lemma main_init_failure_witness :
  exists s' : State,
    main env_no_user32 init_state = (Raise (PySystemExit 1), s') /\
    List.length (hist s') = 2%nat.
Proof.
  destruct (main_init_failure_reports_and_exits env_no_user32 "module not found")
    as (s' & E & H); [reflexivity |].
  exists s'. split; [exact E |].
  rewrite <- length_rev. cbn zeta in H. rewrite H. reflexivity.
Defined.

(** ** What the components touch *)

Lemma probes_probe_events (env : Env) (h : History) (indices : list Z)
  (evs : History) (v : verdict) :
  probes env h indices evs v -> forallb probe_event evs = true.
Proof.
  induction 1 as [h | h i rest evs Hc | h i rest evs msg Hc
                 | h i rest evs1 evs2 v Hc Hp IH].
  - reflexivity.
  - destruct Hc; reflexivity.
  - destruct Hc; reflexivity.
  - rewrite forallb_app, IH. destruct Hc; reflexivity.
Qed.

(** Every handle a run of probes opened is read at most once: there are no
    more reads than constructor calls. *)
Lemma probes_reads (env : Env) (h : History) (indices : list Z)
  (evs : History) (v : verdict) :
  probes env h indices evs v ->
  (List.length (reads_of evs) <= constructor_calls evs)%nat.
Proof.
  induction 1 as [h | h i rest evs Hc | h i rest evs msg Hc
                 | h i rest evs1 evs2 v Hc Hp IH].
  - cbn. lia.
  - destruct Hc; cbn; lia.
  - destruct Hc; cbn; lia.
  - unfold reads_of, constructor_calls in *.
    rewrite flat_map_app, length_rev, length_app, filter_app, length_app.
    rewrite length_rev in IH.
    assert (List.length (flat_map (fun e => match e with
                                            | EvRead _ r => [r]
                                            | _ => []
                                            end) evs1)
            <= List.length (filter (fun e => match e with
                                             | EvOpen _ | EvOpenThrow _ _ => true
                                             | _ => false
                                             end) evs1))%nat
      by (destruct Hc; cbn; lia).
    lia.
Qed.

(** X3. The Camera Locator returns -1 or one of 0..4, and all it does to
    the outside world is construct capture objects, read from them and
    release them: it shows no dialog, writes no file, never waits and never
    calls the lock.  It reads at most once per object it constructed. *)
Theorem detect_camera_stays_with_cameras :
  forall (env : Env) (s : State),
    exists (r : Z) (s' : State) (evs : History),
      detect_camera env s = (Ok r, s') /\
      hist s' = (evs ++ hist s)%list /\
      -1 <= r <= 4 /\
      forallb probe_event evs = true /\
      (List.length (reads_of evs) <= constructor_calls evs)%nat.
Proof.
  intros env s.
  destruct (detect_camera_probes env s) as (s' & evs & v & E & Hh & Hp).
  exists (verdict_index v), s', evs.
  split; [exact E |]. split; [exact Hh |]. split.
  - pose proof (probes_first _ _ _ _ _ Hp) as Hf.
    destruct v as [k | | msg]; cbn; try lia.
    destruct Hf as (before & after & Hr & _).
    assert (Hin : In k (range 5)) by (rewrite Hr; apply in_elt).
    cbn in Hin. intuition lia.
  - split; [exact (probes_probe_events _ _ _ _ _ Hp) |].
    exact (probes_reads _ _ _ _ _ Hp).
Qed.

(** ** The Capturer, step by step *)

(** X4. The Capturer never reads from a camera it has not prepared: when
    it reads at all, what happened before the first read is exactly the
    constructor call, which opened the device, the two resolution settings
    1280 and 720 -- whatever they returned, a refused setting does not stop
    it -- and the pause of 500 ms. *)
Theorem capture_image_prepares_before_reading :
  forall (env : Env) (app : App) (camera_id : Z) (s : State),
    exists (r : option string) (s' : State) (evs : History),
      capture_image env app camera_id s = (Ok r, s') /\
      hist s' = (evs ++ hist s)%list /\
      (reads_of evs <> [] ->
       exists (c : Cap) (b1 b2 : bool),
         until_first_read (rev evs) =
           [EvOpen c;
            EvSet c CAP_PROP_FRAME_WIDTH 1280 (Returns b1);
            EvSet c CAP_PROP_FRAME_HEIGHT 720 (Returns b2);
            EvSleep 500] /\
         cap_dev c = camera_id /\ cap_opened c = true).
Proof.
  intros env app camera_id s.
  unfold capture_image.
  exec;
    (eexists; eexists; eexists; split; [reflexivity |];
     split; [cbn; history_extension |]; cbn;
     intros Hreads;
     first [ exfalso; apply Hreads; reflexivity
           | eexists; eexists; eexists; split; [reflexivity |];
             split; reflexivity ]).
Qed.

(** X5. The Capturer checks the device again itself: when the constructor
    returns an object that is not opened, it returns [None] and has done
    nothing but construct and release that object -- no setting, no pause,
    no read, no write -- and logs one ERROR record naming the index. *)
Theorem capture_image_device_not_opened :
  forall (env : Env) (app : App) (camera_id : Z) (s : State),
    VideoCapture env (hist s) camera_id = Returns false ->
    exists s' : State,
      capture_image env app camera_id s = (Ok None, s') /\
      (let c := mkCap (next_cap_id (hist s)) camera_id false in
       hist s' = EvRelease c :: EvOpen c :: hist s) /\
      logs s' = (ERROR, "无法打开摄像头 " ++ str_int camera_id) :: logs s.
Proof.
  intros env app camera_id s Hopen.
  unfold capture_image. reduce. rewrite Hopen. reduce.
  eexists. split; [reflexivity |]. split; reflexivity.
Qed.

(** The theorem at work: with no device opening, the Capturer on index 0
    leaves a history of two events. *)
Lemma capture_image_device_not_opened_witness :
  exists s' : State,
    capture_image env_no_camera app_fine 0 init_state = (Ok None, s') /\
    List.length (hist s') = 2%nat.
Proof.
  destruct (capture_image_device_not_opened env_no_camera app_fine 0 init_state)
    as (s' & E & H & _); [reflexivity |].
  exists s'. split; [exact E |]. cbn zeta in H. rewrite H. reflexivity.
Defined.

(** X6. The Capturer fails closed.  Whenever one of its calls raises it
    returns [None]; it never shows a dialog and never calls the lock; it
    attempts at most one write, and only after three reads have been made
    and the clock has been read once. *)
Theorem capture_image_fails_closed :
  forall (env : Env) (app : App) (camera_id : Z) (s : State),
    exists (r : option string) (s' : State) (evs : History),
      capture_image env app camera_id s = (Ok r, s') /\
      hist s' = (evs ++ hist s)%list /\
      (existsb raised evs = true -> r = None) /\
      forallb capture_event evs = true /\
      (List.length (writes_of evs) <= 1)%nat /\
      (writes_of evs <> [] ->
       List.length (reads_of evs) = 3%nat /\ List.length (clock_of evs) = 1%nat).
Proof.
  intros env app camera_id s.
  unfold capture_image.
  exec;
    (eexists; eexists; eexists; split; [reflexivity |];
     split; [cbn; history_extension |]; cbn;
     split; [first [reflexivity | discriminate] |];
     split; [reflexivity |]; split; [lia |];
     intros Hw; first [exfalso; apply Hw; reflexivity | split; reflexivity]).
Qed.

(** ** More about the Orchestrator *)

Lemma capture_image_path (env : Env) (app : App) (camera_id : Z)
  (s s' : State) (path : string) :
  capture_image env app camera_id s = (Ok (Some path), s') ->
  exists t, path = os_path_join (app_dir app) (capture_filename t).
Proof.
  unfold capture_image. exec; intros H; inversion H; eauto.
Qed.

Lemma os_path_join_nonempty (dir : string) (t : DateTime) :
  os_path_join dir (capture_filename t) <> "".
Proof.
  destruct (os_path_join_inside dir (capture_filename t)) as (sep & Hsep & ->).
  unfold capture_filename.
  destruct Hsep as [-> | ->]; destruct dir; cbn; discriminate.
Qed.

(** X7. A successful capture is never reported as a failure.  [run] tests
    the returned path for truth, and the path the Capturer returns is never
    the empty string; so after the Capturer has returned a path, [run] shows
    no dialog: the next events are the pause of one second and the lock
    call, and after the lock call only dialogs follow. *)
Theorem run_silent_after_capture :
  forall (env : Env) (app : App) (s s1 s2 s3 : State) (a k : Z) (path : string),
    run_opening env s = (Ok a, s1) ->
    detect_camera env s1 = (Ok k, s2) ->
    k <> -1 ->
    capture_image env app k s2 = (Ok (Some path), s3) ->
    path <> "" /\
    exists (res : result unit) (s4 : State) (later : History),
      run env app s = (res, s4) /\
      hist s4 =
        (later ++
         EvLockWorkStation (LockWorkStation env (EvSleep 1000 :: hist s3))
         :: EvSleep 1000 :: hist s3)%list /\
      forallb is_dialog later = true.
Proof.
  intros env app s s1 s2 s3 a k path Hopening Hdetect Hk Hcapture.
  assert (Hpath : path <> "").
  { destruct (capture_image_path _ _ _ _ _ _ Hcapture) as (t & ->).
    apply os_path_join_nonempty. }
  split; [exact Hpath |].
  destruct path as [| c path]; [contradiction |].
  unfold_run. reduce.
  answer Hopening. answer Hdetect.
  apply Z.eqb_neq in Hk. rewrite Hk. reduce.
  answer Hcapture.
  exec;
    (eexists; eexists; eexists; split; [reflexivity |];
     split; [cbn; history_extension | reflexivity]).
Qed.

(** The theorem at work: with every device working the run reaches exactly
    one lock call and shows no dialog but the opening notice. *)
Lemma run_silent_after_capture_witness :
  exists (res : result unit) (s4 : State),
    run env_fine app_fine init_state = (res, s4) /\
    lock_attempts (hist s4) = 1%nat /\
    List.length (filter is_dialog (hist s4)) = 1%nat.
Proof.
  edestruct (run_silent_after_capture env_fine app_fine init_state)
    as (_ & res & s4 & later & E & _);
    [ vm_compute; reflexivity | vm_compute; reflexivity | discriminate
    | vm_compute; reflexivity |].
  exists res, s4. split; [exact E |].
  vm_compute in E. inversion E. split; reflexivity.
Defined.

(** X8. A lock that did not work is always brought to the user, a lock
    that worked never is.  On the path without a camera, after the
    confirmation was answered with OK: when [LockWorkStation] returns
    non-zero, the lock call is the last event and [run] returns normally;
    when it returns zero or raises, the very next event is the error dialog
    "锁定系统失败". *)
Theorem run_reports_lock_failure :
  forall (env : Env) (app : App) (s s1 s2 s3 : State) (a : Z),
    run_opening env s = (Ok a, s1) ->
    detect_camera env s1 = (Ok (-1), s2) ->
    show_message env msg_no_camera APP_NAME
      (Some (Z.lor MB_ICONWARNING MB_OKCANCEL)) s2 = (Ok IDOK, s3) ->
    exists (res : result unit) (s4 : State) (later : History),
      run env app s = (res, s4) /\
      (let answer := LockWorkStation env (EvSleep 1000 :: hist s3) in
       hist s4 = (later ++ EvLockWorkStation answer :: EvSleep 1000 :: hist s3)%list /\
       (lock_succeeded answer = true -> later = [] /\ res = Ok tt) /\
       (lock_succeeded answer = false ->
        exists shown,
          hd_error (rev later) =
            Some (EvMessageBox msg_lock_failed APP_NAME MB_ICONERROR shown))).
Proof.
  intros env app s s1 s2 s3 a Hopening Hdetect Hconfirm.
  unfold_run. reduce.
  answer Hopening. answer Hdetect. answer Hconfirm.
  exec;
    (eexists; eexists; eexists; split; [reflexivity |];
     split; [cbn; history_extension |]; cbn;
     repeat match goal with H : (_ =? 0) = _ |- _ => rewrite H end; cbn;
     split; [first [discriminate | intros _; split; reflexivity] |];
     first [discriminate | intros _; eexists; reflexivity]).
Qed.

(** The theorem at work: with no device and a lock call that returns 0, the
    run shows the error dialog. *)
Lemma run_reports_lock_failure_witness :
  exists (res : result unit) (s4 : State),
    run env_lock_fails app_fine init_state = (res, s4) /\
    hd_error (hist s4) =
      Some (EvMessageBox msg_lock_failed APP_NAME MB_ICONERROR (Returns IDOK)).
Proof.
  edestruct (run_reports_lock_failure env_lock_fails app_fine init_state)
    as (res & s4 & later & E & _);
    [vm_compute; reflexivity | vm_compute; reflexivity | vm_compute; reflexivity |].
  exists res, s4. split; [exact E |].
  vm_compute in E. inversion E. reflexivity.
Defined.

(** X9. When the opening notice itself raises, [run] goes straight to its
    handler: it logs the error, shows the error dialog and stops.  No
    camera is probed and the session is not locked; [run] returns normally
    exactly when the error dialog call returns. *)
Theorem run_opening_notice_raises :
  forall (env : Env) (app : App) (s : State) (msg : string),
    MessageBoxW env (hist s) msg_about_to_lock APP_NAME MB_ICONINFORMATION
      = Throws msg ->
    exists (res : result unit) (s' : State),
      run env app s = (res, s') /\
      (let notice :=
         EvMessageBox msg_about_to_lock APP_NAME MB_ICONINFORMATION (Throws msg) in
       let shown :=
         MessageBoxW env (notice :: hist s) (msg_run_error msg) APP_NAME
           MB_ICONERROR in
       hist s' =
         EvMessageBox (msg_run_error msg) APP_NAME MB_ICONERROR shown
         :: notice :: hist s /\
       res = match shown with
             | Returns _ => Ok tt
             | Throws msg' => Raise (PyException msg')
             end) /\
      In (ERROR, "应用运行时发生错误: " ++ msg) (logs s') /\
      hd_error (logs s') = Some (INFO, "应用退出").
Proof.
  intros env app s msg Hnotice.
  unfold_run. reduce. rewrite Hnotice. reduce.
  destruct (MessageBoxW env
              (EvMessageBox msg_about_to_lock APP_NAME MB_ICONINFORMATION (Throws msg)
               :: hist s) (msg_run_error msg) APP_NAME MB_ICONERROR) eqn:E;
    reduce; eexists; eexists; (split; [reflexivity |]);
    (split; [split; reflexivity |]); (split; [cbn; auto | reflexivity]).
Qed.

(** The theorem at work: when every message box raises, [run] raises and
    has neither probed nor locked. *)
Lemma run_opening_notice_raises_witness :
  exists (res : result unit) (s' : State),
    run env_dialogs_raise app_fine init_state = (res, s') /\
    List.length (hist s') = 2%nat.
Proof.
  edestruct (run_opening_notice_raises env_dialogs_raise app_fine init_state)
    as (res & s' & E & (H & _) & _); [reflexivity |].
  exists res, s'. split; [exact E |]. rewrite H. reflexivity.
Defined.

(** ** A whole run, in every environment *)

Arguments count : simpl never.

Lemma count_nil (p : Event -> bool) : count p [] = 0%nat.
Proof. reflexivity. Qed.

Lemma count_cons (p : Event -> bool) (e : Event) (h : History) :
  count p (e :: h) = ((if p e then 1 else 0) + count p h)%nat.
Proof. unfold count. cbn. destruct (p e); reflexivity. Qed.

Lemma count_app (p : Event -> bool) (later earlier : History) :
  count p (later ++ earlier)%list = (count p later + count p earlier)%nat.
Proof. unfold count. rewrite filter_app, length_app. reflexivity. Qed.

Lemma count_excluded (q p : Event -> bool) (evs : History) :
  (forall e, q e = true -> p e = false) ->
  forallb q evs = true -> count p evs = 0%nat.
Proof.
  intros Hqp. induction evs as [| e evs IH]; [reflexivity |].
  cbn [forallb]. intros H. apply andb_prop in H. destruct H as [He Hevs].
  rewrite count_cons, (Hqp e He), (IH Hevs). reflexivity.
Qed.

Lemma forallb_weaken (q p : Event -> bool) (evs : History) :
  (forall e, q e = true -> p e = true) ->
  forallb q evs = true -> forallb p evs = true.
Proof.
  intros Hqp. induction evs as [| e evs IH]; [reflexivity |].
  cbn [forallb]. intros H. apply andb_prop in H. destruct H as [He Hevs].
  rewrite (Hqp e He), (IH Hevs). reflexivity.
Qed.

Lemma writes_of_count (h : History) : List.length (writes_of h) = count is_write h.
Proof.
  unfold writes_of, count. rewrite length_rev.
  induction h as [| e h IH]; [reflexivity |].
  destruct e; cbn; rewrite ?IH; reflexivity.
Qed.

(** What the Camera Locator adds to the history, counted. *)
Lemma detect_camera_census (env : Env) (s : State) :
  exists (r : Z) (s' : State) (evs : History),
    detect_camera env s = (Ok r, s') /\
    hist s' = (evs ++ hist s)%list /\
    count is_lock_event evs = 0%nat /\
    count is_write evs = 0%nat /\
    (count is_constructor evs <= 5)%nat /\
    forallb dialog_in_style evs = true.
Proof.
  destruct (detect_camera_probes env s) as (s' & evs & v & E & Hh & Hp).
  pose proof (probes_probe_events _ _ _ _ _ Hp) as Hev.
  exists (verdict_index v), s', evs.
  split; [exact E |]. split; [exact Hh |].
  split; [apply (count_excluded probe_event); [intros []; cbn; congruence | exact Hev] |].
  split; [apply (count_excluded probe_event); [intros []; cbn; congruence | exact Hev] |].
  split; [exact (probes_constructor_calls _ _ _ _ _ Hp) |].
  apply (forallb_weaken probe_event); [intros []; cbn; congruence | exact Hev].
Qed.

(** What the Capturer adds to the history, counted. *)
Lemma capture_image_census (env : Env) (app : App) (camera_id : Z) (s : State) :
  exists (r : option string) (s' : State) (evs : History),
    capture_image env app camera_id s = (Ok r, s') /\
    hist s' = (evs ++ hist s)%list /\
    count is_lock_event evs = 0%nat /\
    (count is_write evs <= 1)%nat /\
    count is_constructor evs = 1%nat /\
    forallb dialog_in_style evs = true.
Proof.
  unfold capture_image.
  exec;
    (eexists; eexists; eexists; split; [reflexivity |];
     split; [cbn; history_extension |]; unfold count; cbn;
     repeat split; lia).
Qed.

(** Walks through [main], using the census of each component at its
    call. *)
Ltac walk_main :=
  unfold main, LockAndCaptureApp, _load_windows_api; unfold_run;
  reduce;
  repeat first
    [ match goal with
      | |- context [detect_camera ?e ?st] =>
          let E := fresh "E" in
          let Hh := fresh "Hh" in
          destruct (detect_camera_census e st)
            as (? & ? & ? & E & Hh & ? & ? & ? & ?);
          cbn [hist] in Hh; rewrite E; clear E
      | |- context [capture_image ?e ?a ?k ?st] =>
          let E := fresh "E" in
          let Hh := fresh "Hh" in
          destruct (capture_image_census e a k st)
            as (? & ? & ? & E & Hh & ? & ? & ? & ?);
          cbn [hist] in Hh; rewrite E; clear E
      end; reduce
    | exec_step ];
  cbn [hist snd];
  repeat match goal with H : hist _ = _ |- _ => rewrite H; clear H end.

Ltac count_events :=
  repeat first [rewrite count_cons | rewrite count_app | rewrite count_nil];
  cbn [is_lock_event is_write is_constructor].

(** X10. In every environment one run of the program calls the lock at
    most once, writes at most one image file and constructs at most six
    capture objects (five probes and one capture). *)
Theorem main_does_each_thing_once :
  forall env : Env,
    let h := hist (snd (main env init_state)) in
    (lock_attempts h <= 1)%nat /\
    (List.length (writes_of h) <= 1)%nat /\
    (constructor_calls h <= 6)%nat.
Proof.
  intros env h. subst h.
  rewrite writes_of_count.
  change lock_attempts with (count is_lock_event).
  change constructor_calls with (count is_constructor).
  walk_main; count_events; repeat split; lia.
Qed.

Ltac find_event :=
  repeat first [ left; reflexivity | right | apply in_or_app; right ].

(** X11. The session is never locked behind the user's back: in every
    environment, when the history of a run has a lock call, User32.dll was
    loaded and the opening notice was shown and its call returned. *)
Theorem main_locks_only_after_notice :
  forall env : Env,
    (1 <= lock_attempts (hist (snd (main env init_state))))%nat ->
    exists a : Z,
      In (EvMessageBox msg_about_to_lock APP_NAME MB_ICONINFORMATION (Returns a))
         (hist (snd (main env init_state))) /\
      In (EvWinDLL "User32.dll" (Returns tt)) (hist (snd (main env init_state))).
Proof.
  intros env.
  change lock_attempts with (count is_lock_event).
  walk_main; count_events; intros Hlock;
    first
      [ exfalso; lia
      | repeat match goal with u : unit |- _ => destruct u end;
        eexists; split; find_event ].
Qed.

(** The theorem at work on the run where everything works. *)
Lemma main_locks_only_after_notice_witness :
  exists a : Z,
    In (EvMessageBox msg_about_to_lock APP_NAME MB_ICONINFORMATION (Returns a))
       (hist (snd (main env_fine init_state))).
Proof.
  destruct (main_locks_only_after_notice env_fine) as (a & H & _).
  - vm_compute. lia.
  - exists a. exact H.
Defined.

(** X12. Every dialog the program shows carries the application name as
    its title, and the only dialog that offers Cancel is the confirmation
    asked when no camera was found: in every environment, every message box
    in the history of a run has the title "LockAndCapture" and either one of
    the three plain styles (information, warning, error) or the OK/Cancel
    warning style together with the no-camera question. *)
Theorem main_dialogs_in_style :
  forall env : Env,
    forallb dialog_in_style (hist (snd (main env init_state))) = true.
Proof.
  intros env.
  walk_main;
    repeat first
      [ rewrite forallb_app
      | match goal with
        | H : forallb dialog_in_style _ = true |- _ => rewrite H
        end
      | progress cbn ];
    reflexivity.
Qed.

(** ** File names *)

Lemma digit_eq (a b : Z) : digit a = digit b -> a mod 10 = b mod 10.
Proof.
  unfold digit. intros H.
  apply (f_equal nat_of_ascii) in H.
  pose proof (Z.mod_pos_bound a 10 ltac:(lia)) as Ha.
  pose proof (Z.mod_pos_bound b 10 ltac:(lia)) as Hb.
  rewrite !nat_ascii_embedding in H by lia.
  lia.
Qed.

Lemma pad2_inj (a b : Z) :
  0 <= a < 100 -> 0 <= b < 100 -> pad2 a = pad2 b -> a = b.
Proof.
  unfold pad2. intros Ha Hb H. inversion H as [[H1 H0]].
  apply digit_eq in H1, H0.
  Z.div_mod_to_equations. lia.
Qed.

Lemma pad4_inj (a b : Z) :
  0 <= a < 10000 -> 0 <= b < 10000 -> pad4 a = pad4 b -> a = b.
Proof.
  unfold pad4, pad2. intros Ha Hb H. inversion H as [[H3 H2 H1 H0]].
  apply digit_eq in H3, H2, H1, H0.
  Z.div_mod_to_equations. lia.
Qed.


Lemma pad2_append_inj (a b : Z) (x y : string) :
  0 <= a < 100 -> 0 <= b < 100 -> pad2 a ++ x = pad2 b ++ y -> a = b /\ x = y.
Proof.
  intros Ha Hb H. unfold pad2 in H. cbn [append] in H.
  injection H as H1 H0 Hxy.
  split; [| exact Hxy].
  apply pad2_inj; [assumption | assumption |].
  unfold pad2. rewrite H1, H0. reflexivity.
Qed.

Lemma pad4_append_inj (a b : Z) (x y : string) :
  0 <= a < 10000 -> 0 <= b < 10000 -> pad4 a ++ x = pad4 b ++ y -> a = b /\ x = y.
Proof.
  intros Ha Hb H. unfold pad4, pad2 in H. cbn [append] in H.
  injection H as H3 H2 H1 H0 Hxy.
  split; [| exact Hxy].
  apply pad4_inj; [assumption | assumption |].
  unfold pad4, pad2. rewrite H3, H2, H1, H0. reflexivity.
Qed.

Lemma append_inj_l (a x y : string) : a ++ x = a ++ y -> x = y.
Proof.
  induction a as [| c a IH]; cbn [append]; intros H; [exact H |].
  injection H as H. exact (IH H).
Qed.

(** X13. Captures taken at different clock readings never share a file
    name: on the readings a [datetime] can hold, [capture_filename] is
    injective.  (Two captures within the same second do share it, so the
    second replaces the first.) *)
Theorem capture_filename_injective :
  forall t1 t2 : DateTime,
    valid_clock t1 -> valid_clock t2 ->
    capture_filename t1 = capture_filename t2 ->
    t1 = t2.
Proof.
  intros [y1 m1 d1 H1 M1 S1] [y2 m2 d2 H2 M2 S2] V1 V2 E.
  unfold valid_clock in V1, V2.
  cbn [dt_year dt_month dt_day dt_hour dt_minute dt_second] in V1, V2.
  unfold capture_filename, strftime in E.
  cbn [dt_year dt_month dt_day dt_hour dt_minute dt_second] in E.
  apply append_inj_l in E.
  rewrite !append_assoc in E.
  apply pad4_append_inj in E; [| lia | lia]. destruct E as [-> E].
  apply pad2_append_inj in E; [| lia | lia]. destruct E as [-> E].
  apply pad2_append_inj in E; [| lia | lia]. destruct E as [-> E].
  apply append_inj_l in E.
  apply pad2_append_inj in E; [| lia | lia]. destruct E as [-> E].
  apply pad2_append_inj in E; [| lia | lia]. destruct E as [-> E].
  apply pad2_append_inj in E; [| lia | lia]. destruct E as [-> E].
  reflexivity.
Qed.

(** The theorem at work on the reading 2024-03-05 09:08:07. *)
Lemma capture_filename_injective_witness :
  valid_clock clock_reading /\ clock_reading = clock_reading.
Proof.
  assert (V : valid_clock clock_reading) by (unfold valid_clock; cbn; lia).
  split; [exact V |].
  exact (capture_filename_injective clock_reading clock_reading V V eq_refl).
Defined.

(** ** Logging set-up *)

(** X14. [setup_logger] can be run again without harm, and a log file
    that cannot be opened does not stop it.  Whatever handlers and level
    the logger had before, the result has level INFO, the console handler
    first and at most the file handler after it; the file handler is there
    exactly when the file could be opened, and when it could not, the
    failure is the one record written, at level ERROR.  Running it on its
    own result gives the same logger again: handlers are not duplicated. *)
Theorem setup_logger_starts_afresh :
  forall (env : Env) (open_log : string -> outcome unit) (logger : Logger),
    let console := StreamHandler "sys.stdout" INFO log_formatter in
    let file := FileHandler (log_path env) "utf-8" INFO log_formatter in
    let (configured, records) := setup_logger env open_log logger in
    logger_level configured = Some INFO /\
    (logger_handlers configured = [console; file] /\ records = [] \/
     logger_handlers configured = [console] /\
     exists msg, open_log (log_path env) = Throws msg /\
                 records = [(ERROR, "无法创建日志文件: " ++ msg)]) /\
    (logger_handlers configured = [console; file] <->
     exists u, open_log (log_path env) = Returns u) /\
    setup_logger env open_log configured = (configured, records).
Proof.
  intros env open_log logger console file.
  unfold setup_logger.
  destruct (open_log (log_path env)) as [u | msg] eqn:E; cbn.
  - split; [reflexivity |]. split; [left; split; reflexivity |].
    split; [split; [intros _; exists u; reflexivity | reflexivity] |].
    reflexivity.
  - split; [reflexivity |].
    split; [right; split; [reflexivity | exists msg; split; reflexivity] |].
    split; [split; [discriminate | intros (u & Hu); discriminate] |].
    reflexivity.
Qed.

(** X15. The log file lies next to the captured images: for the
    application object [LockAndCaptureApp()] returns, the path
    [setup_logger] opens is "LockAndCapture.log" joined to the same
    directory the Capturer joins its file names to, directly inside it. *)
Theorem log_file_next_to_captures :
  forall (env : Env) (s s' : State) (app : App),
    LockAndCaptureApp env s = (Ok app, s') ->
    log_path env = os_path_join (app_dir app) "LockAndCapture.log" /\
    exists sep,
      (sep = "" \/ sep = "\") /\
      log_path env = app_dir app ++ sep ++ "LockAndCapture.log" /\
      forall t,
        os_path_join (app_dir app) (capture_filename t)
        = app_dir app ++ sep ++ capture_filename t.
Proof.
  intros env s s' app Happ.
  assert (Hdir : app_dir app = program_dir env).
  { revert Happ. unfold LockAndCaptureApp, _load_windows_api, program_dir.
    exec; intros H; inversion H; reflexivity. }
  unfold log_path. rewrite Hdir. split; [reflexivity |].
  unfold os_path_join.
  destruct (splitdrive (program_dir env)) as [drive dir] eqn:Hsplit.
  assert (Hwhole : program_dir env = drive ++ dir).
  { unfold splitdrive in Hsplit.
    destruct (program_dir env) as [| a [| b rest]];
      try (inversion Hsplit; reflexivity).
    destruct (Ascii.eqb b ":"); inversion Hsplit; reflexivity. }
  rewrite Hwhole.
  destruct (last_char dir) as [c |].
  - destruct (is_sep c).
    + exists "". split; [left; reflexivity |].
      split; [rewrite append_assoc; reflexivity |].
      intros t. rewrite append_assoc. reflexivity.
    + exists "\". split; [right; reflexivity |].
      split; [rewrite !append_assoc; reflexivity |].
      intros t. rewrite !append_assoc. reflexivity.
  - exists "". split; [left; reflexivity |].
    split; [rewrite append_assoc; reflexivity |].
    intros t. rewrite append_assoc. reflexivity.
Qed.

(** The theorem at work: a script in C:\tools\lock. *)
Lemma log_file_next_to_captures_witness :
  log_path env_fine = "C:\tools\lock\LockAndCapture.log".
Proof.
  edestruct (log_file_next_to_captures env_fine init_state) as [H _];
    [vm_compute; reflexivity |].
  rewrite H. reflexivity.
Defined.

(** ** What the Camera Locator logs *)

(** The probe loop logs only when it finds a camera. *)
Lemma detect_camera_loop_logs (env : Env) :
  forall (indices : list Z) (s s' : State) (res : result (option Z)),
    detect_camera_loop env indices s = (res, s') ->
    match res with
    | Ok (Some i) =>
        In i indices /\
        logs s' = (INFO, "检测到摄像头: ID " ++ str_int i) :: logs s
    | Ok None => logs s' = logs s
    | Raise e => logs s' = logs s /\ exists msg, e = PyException msg
    end.
Proof.
  induction indices as [| i rest IH]; intros s s' res.
  - cbn. intros H. inversion H. reflexivity.
  - cbn [detect_camera_loop]. reduce.
    destruct (VideoCapture env (hist s) i) as [[|] | msg] eqn:Hopen; reduce.
    + match goal with
      | |- context [VideoCapture_read env ?h ?c] =>
          destruct (VideoCapture_read env h c) as [[[|] f] | msg] eqn:Hread
      end; reduce.
      * intros H. inversion H. split; [left; reflexivity | reflexivity].
      * intros H. apply IH in H. cbn [logs] in H.
        destruct res as [[k |] | e]; [| exact H | exact H].
        destruct H as [Hin Hlogs]. split; [right; exact Hin | exact Hlogs].
      * intros H. inversion H. split; [reflexivity | eauto].
    + intros H. apply IH in H. cbn [logs] in H.
      destruct res as [[k |] | e]; [| exact H | exact H].
      destruct H as [Hin Hlogs]. split; [right; exact Hin | exact Hlogs].
    + intros H. inversion H. split; [reflexivity | eauto].
Qed.


(** ** The log tells the truth about the lock *)

(** The records that [l] has on top of [base]. *)
Ltac records_above l base :=
  lazymatch l with
  | base => constr:(@nil (Level * string))
  | ?r :: ?l' => let rest := records_above l' base in constr:(r :: rest)
  end.

Ltac history_extension_logs :=
  lazymatch goal with
  | |- ?l = (?records ++ ?base)%list =>
      let p := records_above l base in unify records p; reflexivity
  end.

Arguments tally : simpl never.

Lemma tally_nil (p : Level * string -> bool) : tally p [] = 0%nat.
Proof. reflexivity. Qed.

Lemma tally_cons (p : Level * string -> bool) (r : Level * string)
  (l : list (Level * string)) :
  tally p (r :: l) = ((if p r then 1 else 0) + tally p l)%nat.
Proof. unfold tally. cbn. destruct (p r); reflexivity. Qed.

Lemma tally_app (p : Level * string -> bool) (l1 l2 : list (Level * string)) :
  tally p (l1 ++ l2)%list = (tally p l1 + tally p l2)%nat.
Proof. unfold tally. rewrite filter_app, length_app. reflexivity. Qed.

Lemma detect_camera_log_records (env : Env) (s s' : State) (r : Z) :
  detect_camera env s = (Ok r, s') ->
  exists last : Level * string,
    logs s' = last :: (INFO, "开始检测摄像头...") :: logs s /\
    (last = (INFO, "检测到摄像头: ID " ++ str_int r) \/
     last = (WARNING, "未检测到可用摄像头") \/
     exists msg, last = (ERROR, "检测摄像头时发生错误: " ++ msg)).
Proof.
  unfold detect_camera.
  remember (range 5) as indices eqn:Hindices. reduce.
  match goal with
  | |- context [detect_camera_loop env indices ?st] =>
      destruct (detect_camera_loop env indices st) as [res s1] eqn:Eloop;
      pose proof (detect_camera_loop_logs env _ _ _ _ Eloop) as Hlogs
  end.
  cbn [logs] in Hlogs.
  destruct res as [[k |] | e]; reduce.
  - destruct Hlogs as [_ Hl]. intros E. inversion E; subst.
    eexists. split; [exact Hl |]. left. reflexivity.
  - intros E. inversion E; subst. cbn [logs]. rewrite Hlogs.
    eexists. split; [reflexivity |]. right; left. reflexivity.
  - destruct Hlogs as [Hl (msg & ->)]. reduce.
    intros E. inversion E; subst. cbn [logs]. rewrite Hl.
    eexists. split; [reflexivity |]. right; right. exists msg. reflexivity.
Qed.

(** The Camera Locator neither locks nor says so. *)
Lemma detect_camera_says_nothing_of_lock (env : Env) (s : State) :
  exists (r : Z) (s' : State) (evs : History) (records : list (Level * string)),
    detect_camera env s = (Ok r, s') /\
    hist s' = (evs ++ hist s)%list /\
    logs s' = (records ++ logs s)%list /\
    count locked_event evs = 0%nat /\
    tally says_locked records = 0%nat.
Proof.
  destruct (detect_camera_probes env s) as (s' & evs & v & E & Hh & Hp).
  pose proof (probes_probe_events _ _ _ _ _ Hp) as Hev.
  destruct (detect_camera_log_records _ _ _ _ E) as (last & Hl & Hlast).
  exists (verdict_index v), s', evs, [last; (INFO, "开始检测摄像头...")].
  split; [exact E |]. split; [exact Hh |]. split; [exact Hl |].
  split.
  - apply (count_excluded probe_event); [intros []; cbn; congruence | exact Hev].
  - destruct Hlast as [-> | [-> | (msg & ->)]]; reflexivity.
Qed.

(** The Capturer neither locks nor says so. *)
Lemma capture_image_says_nothing_of_lock (env : Env) (app : App) (camera_id : Z)
  (s : State) :
  exists (r : option string) (s' : State) (evs : History)
         (records : list (Level * string)),
    capture_image env app camera_id s = (Ok r, s') /\
    hist s' = (evs ++ hist s)%list /\
    logs s' = (records ++ logs s)%list /\
    count locked_event evs = 0%nat /\
    tally says_locked records = 0%nat.
Proof.
  unfold capture_image.
  exec;
    (eexists; eexists; eexists; eexists; split; [reflexivity |];
     split; [cbn; history_extension |];
     split; [cbn; history_extension_logs |];
     split; reflexivity).
Qed.

(** X17. The log tells the truth about the lock: in every environment the
    log of a run has the record "系统已锁定" once for every lock call that
    returned non-zero, and not otherwise -- none when the lock call
    returned zero or raised, none when no lock call was made. *)
Theorem main_logs_locked_when_locked :
  forall env : Env,
    tally says_locked (logs (snd (main env init_state)))
    = count locked_event (hist (snd (main env init_state))).
Proof.
  intros env.
  unfold main, LockAndCaptureApp, _load_windows_api; unfold_run;
  reduce;
  repeat first
    [ match goal with
      | |- context [detect_camera ?e ?st] =>
          let E := fresh "E" in
          let Hh := fresh "Hh" in
          let Hl := fresh "Hl" in
          destruct (detect_camera_says_nothing_of_lock e st)
            as (? & ? & ? & ? & E & Hh & Hl & ? & ?);
          cbn [hist logs] in Hh, Hl; rewrite E; clear E
      | |- context [capture_image ?e ?a ?k ?st] =>
          let E := fresh "E" in
          let Hh := fresh "Hh" in
          let Hl := fresh "Hl" in
          destruct (capture_image_says_nothing_of_lock e a k st)
            as (? & ? & ? & ? & E & Hh & Hl & ? & ?);
          cbn [hist logs] in Hh, Hl; rewrite E; clear E
      end; reduce
    | exec_step ];
  cbn [hist logs snd];
  repeat match goal with
         | H : hist _ = _ |- _ => rewrite H; clear H
         | H : logs _ = _ |- _ => rewrite H; clear H
         end;
  repeat first [ rewrite count_cons | rewrite count_app | rewrite count_nil
               | rewrite tally_cons | rewrite tally_app | rewrite tally_nil ];
  cbn [locked_event lock_succeeded];
  repeat match goal with H : (_ =? 0) = _ |- _ => rewrite H end;
  cbn; lia.
Qed.
